(** * Stock checker: quote cache, watcher registry and comparisons

    A shallow embedding of the aggregation layer of the stock price checker
    (scripts/manager/stockmanager.js, stockwatcher.js, managers.js,
    scripts/data/stock.js, watcher.js, scripts/templates/data.js and
    scripts/net/outgoing/fetch.js), followed by the properties of that code.

    Conventions of the embedding.
    - A JavaScript number is an integer [Z]; NaN and fractions have no
      representative.  Every arithmetic fact below is about lengths of
      arrays or about values that passed the numeric guard of the source.
    - An object has an identity, a natural number handed out when it is
      constructed; [==] between two objects compares identities.
    - The code is asynchronous but single threaded; an [await] is a
      sequence point, so an operation is a function from the world to an
      outcome and the world it leaves.  A thrown error keeps the world
      reached when it was thrown: nothing is undone.
    - Text is a string of 8-bit characters.  [trim] and the symbol pattern
      are modelled on ASCII text; a property that depends on what [trim]
      removes asks for [ascii_text].
    - The remote quote service and the optional callbacks are part of the
      world.  Callbacks are observers: they return or throw, they do not
      write to the managers. *)

From Stdlib Require Import ZArith String Ascii List Lia.
From stdpp Require Import base gmap strings list pretty.

Open Scope string_scope.
Open Scope Z_scope.

(** ** Values *)

Inductive jsval : Type :=
| VUndefined
| VNull
| VBool (b : bool)
| VNum (n : Z)
| VStr (s : string)
| VDate (ms : Z)
| VObject.

(** [typeof value] *)
Definition typeof (value : jsval) : string :=
  match value with
  | VUndefined => "undefined"
  | VNull => "object"
  | VBool _ => "boolean"
  | VNum _ => "number"
  | VStr _ => "string"
  | VDate _ => "object"
  | VObject => "object"
  end.

(** [text.includes(part)] *)
Definition includes (text part : string) : bool :=
  match String.index 0 part text with
  | Some _ => true
  | None => false
  end.

(** [value instanceof Date] *)
Definition instanceof_Date (value : jsval) : bool :=
  match value with
  | VDate _ => true
  | _ => false
  end.

(** Truthiness, as tested by [!value], [value && ...] and [value ? ... : ...]. *)
Definition truthy (value : jsval) : bool :=
  match value with
  | VUndefined | VNull => false
  | VBool b => b
  | VNum n => negb (n =? 0)
  | VStr s => negb (String.eqb s "")
  | VDate _ | VObject => true
  end.

(** The number a value stands for in [a - b]; only numbers and dates occur
    under the guard of the comparison, the rest is NaN. *)
Definition ToNumber (value : jsval) : option Z :=
  match value with
  | VNum n => Some n
  | VDate ms => Some ms
  | _ => None
  end.

(** ** Errors and outcomes *)

Inductive error : Type :=
| ZodError          (* validation *)
| NotFoundError     (* the remote does not know the symbol *)
| ConnectionError   (* the remote call failed *)
| ReferenceError    (* an identifier that is not bound *)
| TypeError         (* a call of, or a property read from, something unfit *)
| OtherError (what : string).

Inductive outcome (A : Type) : Type :=
| Ok (a : A)
| Throw (e : error).
Arguments Ok {A} a.
Arguments Throw {A} e.

Definition outcome_bind {A B} (o : outcome A) (k : A -> outcome B) : outcome B :=
  match o with
  | Ok a => k a
  | Throw e => Throw e
  end.

(** ** Plain objects and arrays *)

(** An object whose key order matters: keys in insertion order. *)
Definition object (V : Type) : Type := list (string * V).

Definition Object_keys {V} (o : object V) : list string := map fst o.
Definition Object_values {V} (o : object V) : list V := map snd o.

(** [o[key]] *)
Fixpoint obj_get {V} (o : object V) (key : string) : option V :=
  match o with
  | [] => None
  | (k, v) :: rest => if String.eqb k key then Some v else obj_get rest key
  end.

(** [o[key] = value]: an existing key keeps its place. *)
Fixpoint obj_set {V} (o : object V) (key : string) (value : V) : object V :=
  match o with
  | [] => [(key, value)]
  | (k, v) :: rest =>
      if String.eqb k key then (k, value) :: rest
      else (k, v) :: obj_set rest key value
  end.

(** [Object.fromEntries(entries)] *)
Definition Object_fromEntries {V} (entries : list (string * V)) : object V :=
  fold_left (fun o kv => obj_set o (fst kv) (snd kv)) entries [].

(** [Object.keys(array)]: the indices of an array, as strings. *)
Definition Array_keys {A} (array : list A) : list string :=
  map (fun index : nat => pretty index) (seq 0 (length array)).

(** [array.slice(start, end)]; [None] is an omitted or undefined [end]. *)
Definition slice {A} (array : list A) (start : Z) (end_ : option Z) : list A :=
  let len := Z.of_nat (length array) in
  let k := if start <? 0 then Z.max (len + start) 0 else Z.min start len in
  let final :=
    match end_ with
    | None => len
    | Some e => if e <? 0 then Z.max (len + e) 0 else Z.min e len
    end in
  take (Z.to_nat (final - k)) (drop (Z.to_nat k) array).

(** ** scripts/data/stock.js: the symbol pattern *)

(** The white space of ASCII text, which is what [trim] removes from such
    text: space, tab, line feed, vertical tab, form feed, carriage return.
    [trim] also removes U+00A0, U+FEFF and the other Unicode spaces and
    line ends; text holding them is outside [ascii_text] below. *)
Definition is_space (c : ascii) : bool :=
  let n := nat_of_ascii c in
  (Nat.eqb n 32 || (Nat.leb 9 n && Nat.leb n 13))%bool.

Fixpoint trim_start (s : string) : string :=
  match s with
  | EmptyString => EmptyString
  | String c rest => if is_space c then trim_start rest else s
  end.

Fixpoint trim_end (s : string) : string :=
  match s with
  | EmptyString => EmptyString
  | String c rest =>
      let rest' := trim_end rest in
      if (is_space c && String.eqb rest' "")%bool then EmptyString
      else String c rest'
  end.

Definition trim (s : string) : string := trim_end (trim_start s).

(** One character of the class [[A-Z.]] *)
Definition upper_or_dot (c : ascii) : bool :=
  let n := nat_of_ascii c in
  ((Nat.leb 65 n && Nat.leb n 90) || Nat.eqb n 46)%bool.

(** [/^[A-Z.]{1,6}$/.test(s)] *)
Definition matches_symbol (s : string) : bool :=
  (forallb upper_or_dot (list_ascii_of_string s)
   && Nat.leb 1 (String.length s) && Nat.leb (String.length s) 6)%bool.

(** Text of ASCII characters only.  [trim] and the pattern are modelled
    on such text. *)
Definition ascii_text (s : string) : bool :=
  forallb (fun c => Nat.ltb (nat_of_ascii c) 128) (list_ascii_of_string s).

(** [StockSybmolRegex.parse(value)], for
    [z.coerce.string().trim().regex(/^[A-Z.]{1,6}$/)].  A value that is not
    a string is coerced to text holding a lower-case letter, a digit or a
    bracket ("undefined", "null", "true", "12", "[object Object]", a date),
    which the pattern rejects. *)
Definition StockSybmolRegex_parse (value : jsval) : outcome string :=
  match value with
  | VStr s => if matches_symbol (trim s) then Ok (trim s) else Throw ZodError
  | _ => Throw ZodError
  end.

(** ** scripts/templates/data.js: DataContainer *)

(** What a constructor can be handed as [properties]: nothing, an object
    with content [B], or a value that is not an object (null, a number, a
    string, an array). *)
Inductive properties (B : Type) : Type :=
| PUndefined
| PObject (bag : B)
| POther.
Arguments PUndefined {B}.
Arguments PObject {B} bag.
Arguments POther {B}.

Module DataContainer.

(** [_schema = z.object({}).loose()]: any object passes and keeps all of
    its keys. *)
Definition _schema_parse {B} (value : properties B) : outcome B :=
  match value with
  | PObject bag => Ok bag
  | PUndefined | POther => Throw ZodError
  end.

Definition _schema_safeParse_success {B} (value : properties B) : bool :=
  match _schema_parse value with
  | Ok _ => true
  | Throw _ => false
  end.

(** [constructor(properties = {}, strict = false)].  The body runs while
    the instance only has the fields of DataContainer, so [this._schema]
    is the loose schema above whatever the subclass declares.  The
    result is the content copied onto the instance by [Object.assign],
    or [None] when nothing was copied. *)
Definition constructor {B} (empty : B) (properties : properties B)
    (strict : bool) : outcome (option B) :=
  let properties :=
    match properties with
    | PUndefined => PObject empty
    | _ => properties
    end in
  if (strict || _schema_safeParse_success (@PUndefined B))%bool
  then outcome_bind (_schema_parse properties) (fun parsed => Ok (Some parsed))
  else Ok None.

End DataContainer.

(** An identifier read in a scope: a name that is not bound throws. *)
Definition resolve (scope : list (string * jsval)) (name : string) : outcome jsval :=
  match obj_get scope name with
  | Some value => Ok value
  | None => Throw ReferenceError
  end.

(** ** scripts/data/stock.js: StockQuote *)

Module StockQuote.

Record t : Type := {
  oid : nat;                       (* identity of the instance *)
  fields : gmap string jsval       (* own properties, [_schema] apart *)
}.

(** [quote[name]] *)
Definition get (quote : t) (name : string) : jsval :=
  default VUndefined (fields quote !! name).

(** [a == b] on two instances *)
Definition same (a b : t) : bool := Nat.eqb (oid a) (oid b).

(** The fields the class declares, in order. *)
Definition declared : list string :=
  ["symbol"; "change"; "changePercent"; "close"; "high"; "latestPrice";
   "latestTime"; "latestVolume"; "low"; "open"; "previousClose"; "volume"].

(** The fields of [_schema] built with
    [z.coerce.number().gte(0).nullable().optional()]. *)
Definition floored : list string :=
  ["close"; "high"; "latestPrice"; "latestVolume"; "low"; "open";
   "previousClose"; "volume"].

(** A sufficient test for [_schema] rejecting a bag: the symbol fails the
    pattern, or a floored field holds a negative number. *)
Definition _schema_rejects (bag : gmap string jsval) : bool :=
  (match StockSybmolRegex_parse (default VUndefined (bag !! "symbol")) with
   | Ok _ => false
   | Throw _ => true
   end
   || existsb (fun name =>
                 match bag !! name with
                 | Some (VNum n) => n <? 0
                 | _ => false
                 end) floored)%bool.

(** [constructor (properties) { super(properties, true);
    Object.assign(this, properties) }].  The field initialisers of
    StockQuote, [_schema] included, run when [super] returns. *)
Definition constructor (properties : properties (gmap string jsval))
    (id : nat) : outcome t :=
  outcome_bind (DataContainer.constructor ∅ properties true) (fun assigned =>
  let this : gmap string jsval := default ∅ assigned in
  let this := fold_right (fun name o => <[name := VUndefined]> o) this declared in
  let this :=
    match properties with
    | PObject bag => bag ∪ this
    | PUndefined | POther => this
    end in
  Ok {| oid := id; fields := this |}).

End StockQuote.

(** ** scripts/data/watcher.js: Watcher *)

Module Watcher.

Record t : Type := {
  stock : list StockQuote.t;
  address : string
}.

(** The names bound in the body of the constructor. *)
Definition scope : list (string * jsval) := [("properties", VObject)].

(** [constructor (properties) {
       super(properties)
       (strict || this._schema.safeParse().success) ? ... : false;
     }]
    No semicolon ends the first line and the next one opens with a
    parenthesis, so the two lines are one expression: the value of
    [super(properties)] applied to an argument.  The argument is
    evaluated before the call, and it begins with the identifier
    [strict], which only the constructor of DataContainer binds.  Read
    as two statements the second would start by reading [strict] all the
    same. *)
Definition constructor (properties : properties t) : outcome t :=
  outcome_bind
    (DataContainer.constructor {| stock := []; address := "" |} properties false)
    (fun _ =>
  outcome_bind (resolve scope "strict") (fun _ =>
  (* the callee is the instance, which is not a function *)
  Throw TypeError)).

End Watcher.

(** ** scripts/manager/managers.js: ManagersResult *)

Module ManagersResult.

(** [stocks] holds one StockQuote or an object of them. *)
Inductive stocks_t : Type :=
| Quote (quote : StockQuote.t)
| Quotes (quotes : gmap string StockQuote.t).

Record t : Type := {
  stocks : stocks_t;
  watchers : list Watcher.t
}.

(** [constructor(stocks = undefined, watchers = undefined)]: each setter
    runs when its argument is truthy; the fields start as [{}] and [[]].
    What the setters check (a StockQuote or an object; an array of
    Watcher) holds of every argument of these types. *)
Definition constructor (stocks : option stocks_t)
    (watchers : option (list Watcher.t)) : t :=
  {| stocks := default (Quotes ∅) stocks;
     watchers := default [] watchers |}.

(** [result.stocks[name]] *)
Definition stocks_get (result : t) (name : string) : jsval :=
  match stocks result with
  | Quote quote => StockQuote.get quote name
  | Quotes quotes =>
      match quotes !! name with
      | Some _ => VObject
      | None => VUndefined
      end
  end.

End ManagersResult.

(** ** scripts/manager/managers.js: ManagersComparisonResult *)

Module ManagersComparisonResult.

Record t : Type := {
  data : object ManagersResult.t
}.

Definition constructor (data : option (object ManagersResult.t)) : t :=
  {| data := default [] data |}.

(** [get names()] *)
Definition names (this : t) : list string := Object_keys (data this).

(** [Object.values(this.data).slice(-(1 - index), index ? -index : undefined)[0]] *)
Definition opposite (this : t) (index : nat) : option ManagersResult.t :=
  head (slice (Object_values (data this))
              (- (1 - Z.of_nat index))
              (if Nat.eqb index 0 then None else Some (- Z.of_nat index))).

(** The loop [for (let index = 0; index < Object.entries(this.data).length; index++)]
    filling [difference[Object.keys(this.data)[index]]]; reading a property
    of a missing entry is a TypeError. *)
Definition for_each_entry {V} (this : t)
    (body : string -> ManagersResult.t -> ManagersResult.t -> V)
    : outcome (object V) :=
  fold_left
    (fun acc index =>
       outcome_bind acc (fun difference =>
       match Object_values (data this) !! index, opposite this index with
       | Some entry, Some other =>
           Ok (obj_set difference
                       (default "undefined" (Object_keys (data this) !! index))
                       (body (default "undefined" (Object_keys (data this) !! index))
                             entry other))
       | _, _ => Throw TypeError
       end))
    (seq 0 (length (data this)))
    (Ok []).

(** [popular]: the watcher count of the opposite entry minus this entry's. *)
Definition popular (this : t) : outcome (object Z) :=
  for_each_entry this (fun _ entry other =>
    Z.of_nat (length (ManagersResult.watchers other))
    - Z.of_nat (length (ManagersResult.watchers entry))).

(** [(typeof(value)).includes(`num`) || value instanceof Date] *)
Definition numeric (value : jsval) : bool :=
  (includes (typeof value) "num" || instanceof_Date value)%bool.

(** [differences]: for each [name] of [Object.keys(this.names)], when this
    entry's and the opposite entry's [stocks[name]] are both numeric, the
    pair [name, opposite - this] is pushed.  [this.names] is an array, so
    its keys are its indices. *)
Definition differences (this : t) : outcome (object (object Z)) :=
  for_each_entry this (fun _ entry other =>
    Object_fromEntries
      (fold_left
         (fun (comparisons : list (string * Z)) name =>
            if forallb numeric [ManagersResult.stocks_get entry name;
                                ManagersResult.stocks_get other name]
            then match ToNumber (ManagersResult.stocks_get other name),
                       ToNumber (ManagersResult.stocks_get entry name) with
                 | Some theirs, Some ours => (comparisons ++ [(name, theirs - ours)])%list
                 | _, _ => comparisons
                 end
            else comparisons)
         (Array_keys (names this))
         [])).

Record comparison_t : Type := {
  watchers : object Z;
  stocks : object (object Z)
}.

(** [get comparison()] *)
Definition comparison (this : t) : outcome comparison_t :=
  outcome_bind (popular this) (fun w =>
  outcome_bind (differences this) (fun s =>
  Ok {| watchers := w; stocks := s |})).

End ManagersComparisonResult.

(** ** The world: both managers, the remote service, the heap *)

(** The first argument of [StockWatchers.search]: omitted, a StockQuote, or
    a symbol. *)
Inductive stock_arg : Type :=
| SUndefined
| SQuote (quote : StockQuote.t)
| SSymbol (symbol : string).

Record World : Type := {
  (* StockManager: [#stocks] and [callbacks] *)
  sm_stocks : gmap string StockQuote.t;
  sm_fetch : option (string -> outcome jsval);
  sm_downloaded : option (option StockQuote.t -> outcome unit);
  sm_deletion : option (string -> outcome bool);
  (* StockWatchers: [#watchers] and [callbacks] *)
  sw_watchers : list Watcher.t;
  sw_search : option (stock_arg -> string -> outcome unit);
  (* what the remote answers for a URL: the parsed JSON body, or the error
     thrown on the way (status not ok, unknown symbol, unparseable body) *)
  remote : string -> outcome (properties (gmap string jsval));
  (* the URLs requested so far, oldest first *)
  requests : list string;
  (* the number of StockQuote instances constructed so far *)
  objects : nat
}.

Definition set_stocks (f : gmap string StockQuote.t -> gmap string StockQuote.t)
    (w : World) : World :=
  {| sm_stocks := f (sm_stocks w); sm_fetch := sm_fetch w;
     sm_downloaded := sm_downloaded w; sm_deletion := sm_deletion w;
     sw_watchers := sw_watchers w; sw_search := sw_search w;
     remote := remote w; requests := requests w; objects := objects w |}.

Definition set_watchers (f : list Watcher.t -> list Watcher.t) (w : World) : World :=
  {| sm_stocks := sm_stocks w; sm_fetch := sm_fetch w;
     sm_downloaded := sm_downloaded w; sm_deletion := sm_deletion w;
     sw_watchers := f (sw_watchers w); sw_search := sw_search w;
     remote := remote w; requests := requests w; objects := objects w |}.

Definition log_request (url : string) (w : World) : World :=
  {| sm_stocks := sm_stocks w; sm_fetch := sm_fetch w;
     sm_downloaded := sm_downloaded w; sm_deletion := sm_deletion w;
     sw_watchers := sw_watchers w; sw_search := sw_search w;
     remote := remote w; requests := (requests w ++ [url])%list;
     objects := objects w |}.

Definition count_object (w : World) : World :=
  {| sm_stocks := sm_stocks w; sm_fetch := sm_fetch w;
     sm_downloaded := sm_downloaded w; sm_deletion := sm_deletion w;
     sw_watchers := sw_watchers w; sw_search := sw_search w;
     remote := remote w; requests := requests w; objects := S (objects w) |}.

(** [new Managers()] in front of a given remote: nothing cached, nobody
    watching, no callback installed. *)
Definition new_Managers
    (service : string -> outcome (properties (gmap string jsval))) : World :=
  {| sm_stocks := ∅; sm_fetch := None; sm_downloaded := None;
     sm_deletion := None; sw_watchers := []; sw_search := None;
     remote := service; requests := []; objects := 0 |}.

(** ** Operations: a world in, an outcome and a world out *)

Definition M (A : Type) : Type := World -> outcome A * World.

Definition ret {A} (a : A) : M A := fun w => (Ok a, w).

Definition bind {A B} (m : M A) (k : A -> M B) : M B :=
  fun w =>
    match m w with
    | (Ok a, w') => k a w'
    | (Throw e, w') => (Throw e, w')
    end.

Notation "'let*' x ':=' m 'in' k" := (bind m (fun x => k))
  (at level 10, x name, m at level 100, k at level 200).

Definition world : M World := fun w => (Ok w, w).
Definition change (f : World -> World) : M unit := fun w => (Ok tt, f w).
Definition lift {A} (o : outcome A) : M A := fun w => (o, w).

(** [for (...) body] over the elements of an array, in order. *)
Fixpoint for_each {A} (body : A -> M unit) (items : list A) : M unit :=
  match items with
  | [] => ret tt
  | item :: rest => let* _ := body item in for_each body rest
  end.

(** [await Promise.all(items.map(async item => body))] with the bodies run
    one after the other, in order of the array, the first throw ending the
    run.  The source starts every body before any has finished: two reads
    that miss the cache for one symbol both send a request, and a read
    that throws does not keep the others from caching.  The model agrees
    with the source when every read is a cache hit, and on the registry,
    which no read touches; the properties of [compare] below are of these
    two kinds. *)
Fixpoint map_each {A B} (body : A -> M B) (items : list A) : M (list B) :=
  match items with
  | [] => ret []
  | item :: rest =>
      let* b := body item in
      let* bs := map_each body rest in
      ret (b :: bs)
  end.

(** [new StockQuote(properties)] *)
Definition new_StockQuote (properties : properties (gmap string jsval))
    : M StockQuote.t :=
  let* w := world in
  let* quote := lift (StockQuote.constructor properties (objects w)) in
  let* _ := change count_object in
  ret quote.

(** [new Watcher(properties)] *)
Definition new_Watcher (properties : properties Watcher.t) : M Watcher.t :=
  lift (Watcher.constructor properties).

(** ** scripts/net/outgoing/fetch.js: StockFetcher *)

Module StockFetcher.

(** [set symbol(symbol)]: the value kept in [#sybmol]. *)
Definition set_symbol (symbol : string) : outcome jsval :=
  if truthy (VStr symbol)
  then outcome_bind (StockSybmolRegex_parse (VStr symbol)) (fun s => Ok (VStr s))
  else Ok VUndefined.

(** [get source()] *)
Definition source (sybmol : jsval) : outcome string :=
  outcome_bind (StockSybmolRegex_parse sybmol) (fun s =>
  Ok ("https://stock-price-checker-proxy.freecodecamp.rocks/v1/stock/" ++ s ++ "/quote")).

(** [async fetch()]: one request to [source], then [new StockQuote(response)]. *)
Definition fetch (sybmol : jsval) : M StockQuote.t :=
  let* url := lift (source sybmol) in
  let* _ := change (log_request url) in
  let* w := world in
  let* response := lift (remote w url) in
  new_StockQuote response.

End StockFetcher.

(** ** scripts/manager/stockmanager.js: StockManager *)

Module StockManager.

(** [select(symbol)]: [this.#stocks[symbol]] *)
Definition select (symbol : string) : M (option StockQuote.t) :=
  let* w := world in
  ret (sm_stocks w !! symbol).

(** [async fetch(symbol)] *)
Definition fetch (symbol : string) : M (option StockQuote.t) :=
  let* w := world in
  match sm_stocks w !! symbol with
  | Some _ =>
      (* Object.keys(this.#stocks).includes(symbol) *)
      select symbol
  | None =>
      let* fetched :=
        match sm_fetch w with
        | Some callback => lift (callback symbol)
        | None => ret VUndefined
        end in
      let* _ :=
        if negb (truthy fetched)
        then
          let* sybmol := lift (StockFetcher.set_symbol symbol) in
          let* quote := StockFetcher.fetch sybmol in
          change (set_stocks (fun stocks => <[symbol := quote]> stocks))
        else ret tt in
      let* w' := world in
      let* _ :=
        match sm_downloaded w' with
        | Some callback => lift (callback (sm_stocks w' !! symbol))
        | None => ret tt
        end in
      select symbol
  end.

(** [unload(symbol)] *)
Definition unload (symbol : string) : M bool :=
  let* w := world in
  let* deletion :=
    match sm_deletion w with
    | Some callback => lift (callback symbol)
    | None => ret true
    end in
  let* _ := change (set_stocks (fun stocks => delete symbol stocks)) in
  ret deletion.

End StockManager.

(** ** scripts/manager/stockwatcher.js: StockWatchers

    The class as [managers.js] loads it.  The repository keeps an earlier
    copy as well; its [add] has the same [find], [update] and [create], and
    [create] calls [new Watcher] there too. *)

Module StockWatchers.

(** [added_stock.symbol == stock] for a symbol given as text.  Text equals
    text; a symbol field that is not text is held unequal. *)
Definition symbol_is (added_stock : StockQuote.t) (symbol : string) : bool :=
  match StockQuote.get added_stock "symbol" with
  | VStr s => String.eqb s symbol
  | _ => false
  end.

(** The local [validate] of [search]. *)
Definition validate (stock : stock_arg) (watcher : Watcher.t) : bool :=
  match stock with
  | SUndefined => true
  | SQuote quote =>
      negb (Nat.eqb (length (List.filter (fun added_stock => StockQuote.same added_stock quote)
                                         (Watcher.stock watcher))) 0)
  | SSymbol symbol =>
      if negb (truthy (VStr symbol)) then true
      else negb (Nat.eqb (length (List.filter (fun added_stock => symbol_is added_stock symbol)
                                              (Watcher.stock watcher))) 0)
  end.

(** The test of the final [filter] of [search]; an empty address is no
    filter. *)
Definition matches (stock : stock_arg) (address : string) (value : Watcher.t) : bool :=
  ((negb (truthy (VStr address)) || String.eqb address (Watcher.address value))
   && validate stock value)%bool.

(** [search(stock = undefined, address = undefined)].  An omitted address
    is the empty string here: both are falsy, and the filter asks no more
    of an address it does not compare.  The opening
    [z.coerce.string().nullable().optional().parse(address)] accepts every
    string. *)
Definition search (stock : stock_arg) (address : string) : M (list Watcher.t) :=
  let* w := world in
  let* _ :=
    match sw_search w with
    | Some callback => lift (callback stock address)
    | None => ret tt
    end in
  ret (List.filter (matches stock address) (sw_watchers w)).

(** [get items()] *)
Definition items : M (list Watcher.t) := search SUndefined "".

(** What [this.search] denotes when it is not called: the method. *)
Inductive receiver : Type :=
| Method
| Items (array : list Watcher.t).

(** [receiver.map(...)] and [receiver.forEach(...)]: an array hands its
    elements to the callback; the method of a class has neither property,
    and calling what is not there is a TypeError. *)
Definition elements (r : receiver) : outcome (list Watcher.t) :=
  match r with
  | Items array => Ok array
  | Method => Throw TypeError
  end.

(** [get addresses() { return new Set(this.search.map((value) => value.address)) }] *)
Definition addresses : M (gset string) :=
  let* values := lift (elements Method) in
  ret (list_to_set (map Watcher.address values)).

(** [get stocks()]: [this.search.forEach(...)] on the method as well; the
    callback calls [stocks.union(...)] and drops what it returns, so the
    set handed back would be the empty one it started as. *)
Definition stocks : M (list StockQuote.t) :=
  let* _ := lift (elements Method) in
  ret [].

(** The local [update] of [add]: push onto the first watcher of the address. *)
Fixpoint update (stock : StockQuote.t) (address : string) (watchers : list Watcher.t)
    : option (list Watcher.t) :=
  match watchers with
  | [] => None
  | watcher :: rest =>
      if String.eqb (Watcher.address watcher) address
      then Some ({| Watcher.stock := (Watcher.stock watcher ++ [stock])%list;
                    Watcher.address := Watcher.address watcher |} :: rest)
      else option_map (cons watcher) (update stock address rest)
  end.

(** [add(stock, address)] *)
Definition add (stock : ManagersResult.stocks_t) (address : string) : M bool :=
  (* z.instanceof(StockQuote).parse(stock) *)
  let* quote :=
    lift (match stock with
          | ManagersResult.Quote quote => Ok quote
          | ManagersResult.Quotes _ => Throw ZodError
          end) in
  (* find *)
  let* matching := search (SQuote quote) address in
  if negb (Nat.eqb (length matching) 0) then ret false
  else
    (* append *)
    let* existing := search SUndefined address in
    if negb (Nat.eqb (length existing) 0)
    then
      (* update *)
      let* w := world in
      match update quote address (sw_watchers w) with
      | Some watchers => let* _ := change (set_watchers (fun _ => watchers)) in ret true
      | None => ret false
      end
    else
      (* create *)
      let* watcher :=
        new_Watcher (PObject {| Watcher.stock := [quote]; Watcher.address := address |}) in
      let* _ := change (set_watchers (fun watchers => (watchers ++ [watcher])%list)) in
      ret true.

End StockWatchers.

(** ** scripts/manager/managers.js: Managers *)

Module Managers.

(** [async read(symbol)] *)
Definition read (symbol : string) : M ManagersResult.t :=
  let* quote := StockManager.fetch symbol in
  let* found :=
    StockWatchers.search
      (match quote with Some q => SQuote q | None => SUndefined end) "" in
  ret (ManagersResult.constructor (option_map ManagersResult.Quote quote) (Some found)).

(** The [symbol] argument of [watch]: one symbol, or an array of them. *)
Inductive symbols : Type :=
| One (symbol : string)
| Many (array : list string).

(** [(Array.isArray(symbol)) ? symbol : [symbol]] *)
Definition names_of (symbol : symbols) : list string :=
  match symbol with
  | One s => [s]
  | Many array => array
  end.

(** What [watch] resolves to. *)
Inductive result : Type :=
| Single (r : ManagersResult.t)
| Comparison (c : ManagersComparisonResult.t).

(** [async compare(symbols)] *)
Definition compare (symbols : list string) : M ManagersComparisonResult.t :=
  let names := slice symbols 0 (Some 2) in
  let* data :=
    map_each (fun symbol => let* r := read symbol in ret (symbol, r)) names in
  ret (ManagersComparisonResult.constructor (Some (Object_fromEntries data))).

(** The body of the loop of [watch]. *)
Definition watch_one (address : string) (name : string) : M unit :=
  let* initial := read name in
  let* _ := StockWatchers.add (ManagersResult.stocks initial) address in
  ret tt.

(** [async watch(symbol, address)] *)
Definition watch (symbol : symbols) (address : string) : M result :=
  let* _ := for_each (watch_one address) (names_of symbol) in
  match symbol with
  | Many array => let* c := compare array in ret (Comparison c)
  | One s => let* r := read s in ret (Single r)
  end.

(** [get loaded()] *)
Definition loaded : M ManagersResult.t :=
  let* w := world in
  let* items := StockWatchers.items in
  ret (ManagersResult.constructor (Some (ManagersResult.Quotes (sm_stocks w))) (Some items)).

End Managers.

(** ** scripts/manager/routes.js: Routes *)

(** [s.toLocaleLowerCase()] on the letters A to Z; the other characters
    stay.  No character outside A to Z lower-cases to a letter of the words
    [willwatch] looks for, so the test below does not depend on the rest. *)
Definition lower (c : ascii) : ascii :=
  let n := nat_of_ascii c in
  if (Nat.leb 65 n && Nat.leb n 90)%bool then ascii_of_nat (n + 32) else c.

Definition toLocaleLowerCase (s : string) : string :=
  string_of_list_ascii (map lower (list_ascii_of_string s)).

(** [array.includes(value)] compares with SameValueZero: a number is never
    a string. *)
Definition same_value_zero (a b : jsval) : bool :=
  match a, b with
  | VUndefined, VUndefined => true
  | VNull, VNull => true
  | VBool x, VBool y => Bool.eqb x y
  | VNum x, VNum y => x =? y
  | VStr x, VStr y => String.eqb x y
  | VDate x, VDate y => x =? y
  | _, _ => false
  end.

(** [array.some(test)]: the first element that passes ends the search, and
    so does the first test that throws. *)
Fixpoint some {A} (test : A -> outcome bool) (array : list A) : outcome bool :=
  match array with
  | [] => Ok false
  | item :: rest =>
      outcome_bind (test item) (fun passed =>
      if passed then Ok true else some test rest)
  end.

Module Routes.

(** A parameter of the query string as the framework parses it: text, the
    same name given several times, or a bracketed name. *)
Inductive query_value : Type :=
| Text (s : string)
| Several (items : list string)
| Nested.

(** A request that carries a [stock] parameter, one symbol or several, and
    an [ip]; [query] holds the other parameters. *)
Record Request : Type := {
  stock : Managers.symbols;
  query : object query_value;
  ip : string
}.

(** The values [willwatch] accepts: [[1, 'true', 'yes', '+']]. *)
Definition choices : list jsval := [VNum 1; VStr "true"; VStr "yes"; VStr "+"].

(** The test of one name in [willwatch]:
    [Object.keys(query).includes(name) && query[name] &&
     choices.includes(query[name].toLocaleLowerCase())].
    An array or an object is truthy and has no [toLocaleLowerCase]. *)
Definition flag (query : object query_value) (name : string) : outcome bool :=
  match obj_get query name with
  | None => Ok false
  | Some (Text s) =>
      if truthy (VStr s)
      then Ok (existsb (same_value_zero (VStr (toLocaleLowerCase s))) choices)
      else Ok false
  | Some (Several _) | Some Nested => Throw TypeError
  end.

(** The local [willwatch] of [any]. *)
Definition willwatch (request : Request) : outcome bool :=
  some (flag (query request)) ["like"; "watch"].

(** [watch(request)] *)
Definition watch (request : Request) : M Managers.result :=
  Managers.watch (stock request) (ip request).

(** [any(request)]: [watch] when a flag asks for it, else [compare] for an
    array and [read] for one symbol. *)
Definition any (request : Request) : M Managers.result :=
  let* watching := lift (willwatch request) in
  if watching then watch request
  else
    match stock request with
    | Managers.Many array =>
        let* c := Managers.compare array in ret (Managers.Comparison c)
    | Managers.One s =>
        let* r := Managers.read s in ret (Managers.Single r)
    end.

End Routes.

(** ** scripts/net/incoming/data/response.js *)

Module stockData.

Record t : Type := {
  stock : jsval;
  price : jsval;
  likes : nat
}.

(** [_import(data)], as [new stockData(data)] runs it. *)
Definition _import (data : ManagersResult.t) : t :=
  {| stock := ManagersResult.stocks_get data "symbol";
     price := ManagersResult.stocks_get data "latestPrice";
     likes := length (ManagersResult.watchers data) |}.

(** [constructor(data) { data && (this._import(data)) }]; the fields start
    as [""], [0] and [0]. *)
Definition constructor (data : option ManagersResult.t) : t :=
  match data with
  | Some data => _import data
  | None => {| stock := VStr EmptyString; price := VNum 0; likes := 0 |}
  end.

(** [Object.entries(instance)] *)
Definition entries (this : t) : list (string * jsval) :=
  [("stock", stock this); ("price", price this);
   ("likes", VNum (Z.of_nat (likes this)))].

End stockData.

Module comparedStockData.

(** One element of [get stockData()]: the entries of the stockData built
    for [name], those whose key includes "like" dropped, then [rel_likes].
    The comparison is computed anew for each name. *)
Definition element (data : ManagersComparisonResult.t) (name : string)
    : outcome (object jsval) :=
  let kept :=
    List.filter (fun record : string * jsval => negb (includes (fst record) "like"))
                (stockData.entries
                   (stockData.constructor
                      (obj_get (ManagersComparisonResult.data data) name))) in
  outcome_bind (ManagersComparisonResult.comparison data) (fun comparison =>
  Ok (Object_fromEntries
        (kept ++ [("rel_likes",
                   match obj_get (ManagersComparisonResult.watchers comparison) name with
                   | Some difference => VNum difference
                   | None => VUndefined
                   end)])%list)).

(** [get stockData()]: [this.#data.names.map(...)] *)
Fixpoint elements (data : ManagersComparisonResult.t) (names : list string)
    : outcome (list (object jsval)) :=
  match names with
  | [] => Ok []
  | name :: rest =>
      outcome_bind (element data name) (fun first =>
      outcome_bind (elements data rest) (fun others =>
      Ok (first :: others)))
  end.

Definition stockData (data : ManagersComparisonResult.t) : outcome (list (object jsval)) :=
  elements data (ManagersComparisonResult.names data).

End comparedStockData.

(** ** scripts/net/incoming/input-output.js: OutputProcessor *)

Module OutputProcessor.

(** What [get message()] hands to the response: [{error: ...}] around the
    formatted error, or [{stockData: ...}] around one stockData or around
    the array of a comparison.  The formatted error is kept as the error
    it was built from. *)
Inductive message : Type :=
| Failure (e : error)
| One (data : stockData.t)
| Several (data : list (object jsval)).

(** The errors [execute] turns into a response: [Errors.fetching.Connection],
    [Errors.fetching.NotFound] and [Errors.validation]. *)
Definition known (e : error) : bool :=
  match e with
  | ConnectionError | NotFoundError | ZodError => true
  | ReferenceError | TypeError | OtherError _ => false
  end.

(** [async execute(callback)] on a new processor, then [message]. *)
Definition execute (callback : M Managers.result) : M message :=
  fun w =>
    match callback w with
    | (Throw e, w1) => if known e then (Ok (Failure e), w1) else (Throw e, w1)
    | (Ok (Managers.Single result), w1) =>
        (Ok (One (stockData.constructor (Some result))), w1)
    | (Ok (Managers.Comparison result), w1) =>
        match comparedStockData.stockData result with
        | Ok data => (Ok (Several data), w1)
        | Throw e => (Throw e, w1)
        end
    end.

End OutputProcessor.

(** ** routes/api.js: GET /api/stock-prices *)

(** [res.send(await output.execute(() => routes.any(req)))] *)
Definition api_get (request : Routes.Request) : M OutputProcessor.message :=
  OutputProcessor.execute (Routes.any request).

(** ** Vocabulary of the properties *)

(** What [callbacks.search] answers when [search] calls it; no callback
    installed counts as a normal return. *)
Definition search_hook (w : World) (stock : stock_arg) (address : string)
    : outcome unit :=
  match sw_search w with
  | Some callback => callback stock address
  | None => Ok tt
  end.

(** From [w] to [w1] the callbacks and the remote are the same and no cached
    quote was lost or replaced. *)
Definition preserved (w w1 : World) : Prop :=
  sm_fetch w1 = sm_fetch w /\ sm_downloaded w1 = sm_downloaded w
  /\ sm_deletion w1 = sm_deletion w /\ sw_search w1 = sw_search w
  /\ remote w1 = remote w /\ sm_stocks w ⊆ sm_stocks w1.

(** [search(quote, address)] over [watchers] is not empty. *)
Definition registered (quote : StockQuote.t) (address : string)
    (watchers : list Watcher.t) : Prop :=
  List.filter (StockWatchers.matches (SQuote quote) address) watchers ≠ [].

(** [after] is [before] with quotes pushed onto some stock lists: same
    watchers, same addresses, same order. *)
Definition appended (before after : list Watcher.t) : Prop :=
  Forall2 (fun a b => Watcher.address b = Watcher.address a
                      /\ exists extra, Watcher.stock b = (Watcher.stock a ++ extra)%list)
          before after.

(** Every quote on record, cached or watched, was constructed earlier:
    its identity is below the count of objects. *)
Definition heap_ok (w : World) : Prop :=
  (forall symbol quote, sm_stocks w !! symbol = Some quote ->
                        (StockQuote.oid quote < objects w)%nat)
  /\ Forall (fun watcher =>
               Forall (fun quote => (StockQuote.oid quote < objects w)%nat)
                      (Watcher.stock watcher))
            (sw_watchers w).

(** One use of the managers by a client. *)
Inductive call : Type :=
| CallRead (symbol : string)
| CallWatch (symbol : Managers.symbols) (address : string)
| CallCompare (symbols : list string)
| CallUnload (symbol : string).

(** The world a call leaves, however it ends. *)
Definition after (c : call) (w : World) : World :=
  match c with
  | CallRead symbol => snd (Managers.read symbol w)
  | CallWatch symbol address => snd (Managers.watch symbol address w)
  | CallCompare symbols => snd (Managers.compare symbols w)
  | CallUnload symbol => snd (StockManager.unload symbol w)
  end.

(** The world a session of calls leaves. *)
Definition session (calls : list call) (w : World) : World :=
  fold_left (fun w c => after c w) calls w.

(** What [callbacks.fetch] leaves to StockFetcher: not installed, or
    resolving to a falsy value. *)
Definition defers (w : World) (symbol : string) : Prop :=
  match sm_fetch w with
  | Some callback => exists fetched, callback symbol = Ok fetched /\ truthy fetched = false
  | None => True
  end.

(** What [callbacks.deletion] answers for a symbol; [true] stands in when
    none is installed. *)
Definition deletion_hook (w : World) (symbol : string) : outcome bool :=
  match sm_deletion w with
  | Some callback => callback symbol
  | None => Ok true
  end.

(** The address StockFetcher asks for a symbol the pattern accepts:
    [get source()] around the trimmed symbol. *)
Definition source_of (symbol : string) : string :=
  "https://stock-price-checker-proxy.freecodecamp.rocks/v1/stock/" ++ trim symbol ++ "/quote".

(** The watchers [read] reports for a quote: the entries holding it. *)
Definition holders (quote : StockQuote.t) (w : World) : list Watcher.t :=
  List.filter (StockWatchers.matches (SQuote quote) "") (sw_watchers w).

(** Unfold one layer of the operations. *)
Ltac run :=
  unfold bind, ret, lift, world, change in *; simpl in *.

(** Close the conjuncts left by a case analysis of an operation. *)
Ltac frame :=
  repeat match goal with
         | |- _ /\ _ => split
         | |- forall _, _ => intro
         | H : Ok _ = Ok _ |- _ => injection H as H; subst
         | H : Throw _ = Ok _ |- _ => discriminate H
         end;
  simpl; eauto; try congruence; try (by apply insert_subseteq).

(** ** Fixtures *)

Module Fixture.

(** A quote body as the remote sends it. *)
Definition body (symbol : string) (price : Z) : gmap string jsval :=
  <["symbol" := VStr symbol]> (<["latestPrice" := VNum price]> ∅).

Definition url (symbol : string) : string :=
  "https://stock-price-checker-proxy.freecodecamp.rocks/v1/stock/" ++ symbol ++ "/quote".

(** A remote that knows DIS and NKE. *)
Definition service (address : string) : outcome (properties (gmap string jsval)) :=
  if String.eqb address (url "DIS") then Ok (PObject (body "DIS" 100))
  else if String.eqb address (url "NKE") then Ok (PObject (body "NKE" 70))
  else Throw NotFoundError.

(** The managers as the server builds them. *)
Definition fresh : World := new_Managers service.

(** The managers with a [callbacks.fetch] that resolves to a quote. *)
Definition hooked : World :=
  {| sm_stocks := ∅; sm_fetch := Some (fun _ => Ok VObject);
     sm_downloaded := None; sm_deletion := None; sw_watchers := [];
     sw_search := None; remote := service; requests := []; objects := 0 |}.

(** Two quotes as [new StockQuote] builds them from the bodies above. *)
Definition quote (id : nat) (symbol : string) (price : Z) : StockQuote.t :=
  {| StockQuote.oid := id;
     StockQuote.fields :=
       body symbol price
       ∪ fold_right (fun name o => <[name := VUndefined]> o)
                    (body symbol price) StockQuote.declared |}.

Definition dis : StockQuote.t := quote 0 "DIS" 100.
Definition nke : StockQuote.t := quote 1 "NKE" 70.

(** A result for a quote with [count] watchers. *)
Definition snapshot (q : StockQuote.t) (count : nat) : ManagersResult.t :=
  {| ManagersResult.stocks := ManagersResult.Quote q;
     ManagersResult.watchers :=
       repeat {| Watcher.stock := [q]; Watcher.address := "10.0.0.1" |} count |}.

(** A body that breaks what [StockQuote._schema] declares twice over. *)
Definition malformed : gmap string jsval := body "TOOLONGSYMBOL" (-5).

End Fixture.

(** Managers in use. *)

Module Sample.

(** Managers whose [callbacks.downloaded] throws. *)
Definition grumpy : World :=
  {| sm_stocks := ∅; sm_fetch := None;
     sm_downloaded := Some (fun _ => Throw (OtherError "downloaded"));
     sm_deletion := None; sw_watchers := []; sw_search := None;
     remote := Fixture.service; requests := []; objects := 0 |}.

(** Managers that have DIS cached and one watcher of it. *)
Definition warm : World :=
  {| sm_stocks := {["DIS" := Fixture.dis]}; sm_fetch := None;
     sm_downloaded := None; sm_deletion := None;
     sw_watchers := [{| Watcher.stock := [Fixture.dis]; Watcher.address := "1.2.3.4" |}];
     sw_search := None;
     remote := Fixture.service; requests := [Fixture.url "DIS"]; objects := 1 |}.

(** Managers with a watcher on record whose [callbacks.fetch] resolves to a
    quote. *)
Definition hooked_seeded : World :=
  set_watchers (fun _ => [{| Watcher.stock := []; Watcher.address := "1.2.3.4" |}])
               Fixture.hooked.

End Sample.

(** * Properties *)

(** ** Objects and slices *)

Lemma obj_get_set_same {V} (o : object V) key value :
  obj_get (obj_set o key value) key = Some value.
Proof.
  induction o as [|[k v] rest IH]; simpl.
  - by rewrite String.eqb_refl.
  - destruct (String.eqb k key) eqn:E; simpl; rewrite E; [done | apply IH].
Qed.

Lemma obj_get_set_other {V} (o : object V) key key' value :
  key ≠ key' -> obj_get (obj_set o key value) key' = obj_get o key'.
Proof.
  intros Hne. induction o as [|[k v] rest IH]; simpl.
  - destruct (String.eqb key key') eqn:E; [|done].
    apply String.eqb_eq in E. contradiction.
  - destruct (String.eqb k key) eqn:E; simpl.
    + apply String.eqb_eq in E. subst k.
      destruct (String.eqb key key') eqn:E'; [|done].
      apply String.eqb_eq in E'. contradiction.
    + destruct (String.eqb k key'); [done | apply IH].
Qed.

(** ** ManagersComparisonResult *)

Section Comparison.

Import ManagersComparisonResult.

Lemma opposite_single (name : string) (r : ManagersResult.t) :
  opposite {| data := [(name, r)] |} 0 = Some r.
Proof. reflexivity. Qed.

Lemma opposite_pair (A B : string) (rA rB : ManagersResult.t) :
  opposite {| data := [(A, rA); (B, rB)] |} 0 = Some rB
  /\ opposite {| data := [(A, rA); (B, rB)] |} 1 = Some rA.
Proof. split; reflexivity. Qed.

Lemma popular_pair (A B : string) (rA rB : ManagersResult.t) :
  A ≠ B ->
  popular {| data := [(A, rA); (B, rB)] |}
  = Ok [(A, Z.of_nat (length (ManagersResult.watchers rB))
            - Z.of_nat (length (ManagersResult.watchers rA)));
        (B, Z.of_nat (length (ManagersResult.watchers rA))
            - Z.of_nat (length (ManagersResult.watchers rB)))].
Proof.
  intros Hne. destruct (opposite_pair A B rA rB) as [H0 H1].
  unfold popular, for_each_entry. cbn.
  rewrite H0. cbn. rewrite H1. cbn.
  destruct (String.eqb A B) eqn:E; [|reflexivity].
  apply String.eqb_eq in E. contradiction.
Qed.

Lemma differences_pair_ok (A B : string) (rA rB : ManagersResult.t) :
  exists s, differences {| data := [(A, rA); (B, rB)] |} = Ok s.
Proof.
  destruct (opposite_pair A B rA rB) as [H0 H1].
  unfold differences, for_each_entry. cbn.
  rewrite H0. cbn. rewrite H1. cbn.
  eexists. reflexivity.
Qed.

End Comparison.

(** C2.  In a comparison over exactly two entries, A first and B second,
    with wA and wB watchers, the watcher differences are equal and
    opposite: [comparison.watchers[A] = wB - wA] and
    [comparison.watchers[B] = wA - wB]. *)
Theorem watcher_difference_two_entries (A B : string) (rA rB : ManagersResult.t) :
  A ≠ B ->
  exists c,
    ManagersComparisonResult.comparison
      {| ManagersComparisonResult.data := [(A, rA); (B, rB)] |} = Ok c
    /\ obj_get (ManagersComparisonResult.watchers c) A
       = Some (Z.of_nat (length (ManagersResult.watchers rB))
               - Z.of_nat (length (ManagersResult.watchers rA)))
    /\ obj_get (ManagersComparisonResult.watchers c) B
       = Some (Z.of_nat (length (ManagersResult.watchers rA))
               - Z.of_nat (length (ManagersResult.watchers rB))).
Proof.
  intros Hne.
  destruct (differences_pair_ok A B rA rB) as [s Hs].
  unfold ManagersComparisonResult.comparison.
  rewrite (popular_pair A B rA rB Hne), Hs. simpl.
  eexists. split; [reflexivity|]. simpl.
  rewrite !String.eqb_refl.
  destruct (String.eqb A B) eqn:E.
  - apply String.eqb_eq in E. contradiction.
  - split; reflexivity.
Qed.

Lemma watcher_difference_two_entries_witness :
  exists c,
    ManagersComparisonResult.comparison
      {| ManagersComparisonResult.data :=
           [("DIS", Fixture.snapshot Fixture.dis 3);
            ("NKE", Fixture.snapshot Fixture.nke 1)] |} = Ok c
    /\ obj_get (ManagersComparisonResult.watchers c) "DIS" = Some (1 - 3)
    /\ obj_get (ManagersComparisonResult.watchers c) "NKE" = Some (3 - 1).
Proof.
  apply (watcher_difference_two_entries "DIS" "NKE"
           (Fixture.snapshot Fixture.dis 3) (Fixture.snapshot Fixture.nke 1)).
  discriminate.
Defined.

(** C10.  In a comparison holding one entry the entry is its own opposite,
    so its watcher difference is 0. *)
Theorem watcher_difference_single_entry (name : string) (r : ManagersResult.t) :
  ManagersComparisonResult.opposite
    {| ManagersComparisonResult.data := [(name, r)] |} 0 = Some r
  /\ exists c,
       ManagersComparisonResult.comparison
         {| ManagersComparisonResult.data := [(name, r)] |} = Ok c
       /\ ManagersComparisonResult.watchers c = [(name, 0)].
Proof.
  split; [reflexivity|].
  unfold ManagersComparisonResult.comparison, ManagersComparisonResult.popular,
    ManagersComparisonResult.differences, ManagersComparisonResult.for_each_entry.
  cbn. rewrite (opposite_single name r). cbn.
  eexists. split; [reflexivity|]. cbn.
  by rewrite Z.sub_diag.
Qed.

(** C4, evaluated.  DIS at 100 against NKE at 70: both quotes carry a
    numeric [latestPrice], and the difference objects come out empty, with
    no [latestPrice] in them. *)
Theorem price_difference_is_absent :
  ManagersResult.stocks_get (Fixture.snapshot Fixture.dis 0) "latestPrice" = VNum 100
  /\ ManagersResult.stocks_get (Fixture.snapshot Fixture.nke 0) "latestPrice" = VNum 70
  /\ exists c,
       ManagersComparisonResult.comparison
         {| ManagersComparisonResult.data :=
              [("DIS", Fixture.snapshot Fixture.dis 0);
               ("NKE", Fixture.snapshot Fixture.nke 0)] |} = Ok c
       /\ ManagersComparisonResult.stocks c = [("DIS", []); ("NKE", [])]
       /\ (obj_get (ManagersComparisonResult.stocks c) "DIS"
             ≫= (fun d => obj_get d "latestPrice")) = None.
Proof.
  split; [vm_compute; reflexivity|].
  split; [vm_compute; reflexivity|].
  eexists. split; [vm_compute; reflexivity|].
  split; reflexivity.
Qed.

(** In a comparison of two entries no difference object ever holds a
    price: the names tried are the indices of [names], not field names. *)
Lemma differences_two_entries_no_price (A B : string) (rA rB : ManagersResult.t) s :
  ManagersComparisonResult.differences
    {| ManagersComparisonResult.data := [(A, rA); (B, rB)] |} = Ok s ->
  forall key d, obj_get s key = Some d -> obj_get d "latestPrice" = None.
Proof.
  destruct (opposite_pair A B rA rB) as [H0 H1].
  unfold ManagersComparisonResult.differences, ManagersComparisonResult.for_each_entry.
  cbn. rewrite H0. cbn. rewrite H1. cbn.
  intros [= <-] key d.
  repeat case_match; simplify_eq; cbn; intros; simplify_eq; cbn; try done.
  all: repeat case_match; simplify_eq; done.
Qed.

(** ** Constructors *)

Lemma StockQuote_constructor_accepts (bag : gmap string jsval) (id : nat) :
  exists q,
    StockQuote.constructor (PObject bag) id = Ok q
    /\ StockQuote.oid q = id
    /\ forall name value, bag !! name = Some value -> StockQuote.get q name = value.
Proof.
  eexists. split; [reflexivity|]. split; [reflexivity|].
  intros name value Hin. unfold StockQuote.get. simpl.
  by rewrite (lookup_union_Some_l _ _ _ _ Hin).
Qed.

Lemma Watcher_constructor_throws (p : properties Watcher.t) :
  Watcher.constructor p = Throw ReferenceError.
Proof. destruct p; reflexivity. Qed.

(** C6, evaluated.  A body whose symbol has thirteen letters and whose
    price is negative breaks the declared schema, and [new StockQuote]
    hands back an instance holding both values; [new Watcher] on a well
    formed body throws an error that is not a validation error. *)
Theorem construction_without_validation :
  StockQuote._schema_rejects Fixture.malformed = true
  /\ (exists q,
        StockQuote.constructor (PObject Fixture.malformed) 0 = Ok q
        /\ StockQuote.get q "symbol" = VStr "TOOLONGSYMBOL"
        /\ StockQuote.get q "latestPrice" = VNum (-5))
  /\ Watcher.constructor
       (PObject {| Watcher.stock := [Fixture.dis]; Watcher.address := "1.2.3.4" |})
     = Throw ReferenceError.
Proof.
  split; [vm_compute; reflexivity|].
  split; [|reflexivity].
  eexists. split; [reflexivity|].
  split; vm_compute; reflexivity.
Qed.

(** ** Running the operations *)

(** [search] changes nothing and returns the filtered watchers unless the
    callback throws. *)
Lemma search_run stock address w :
  StockWatchers.search stock address w
  = (outcome_bind (search_hook w stock address)
       (fun _ => Ok (List.filter (StockWatchers.matches stock address) (sw_watchers w))), w).
Proof.
  unfold StockWatchers.search, search_hook. run.
  destruct (sw_search w) as [callback|]; [|reflexivity].
  destruct (callback stock address) as [[]|]; reflexivity.
Qed.

(** A cached symbol: the quote comes back and the world is untouched. *)
Lemma fetch_hit S w q :
  sm_stocks w !! S = Some q -> StockManager.fetch S w = (Ok (Some q), w).
Proof.
  intros H. unfold StockManager.fetch, StockManager.select. run.
  rewrite H. simpl. by rewrite H.
Qed.

(** Whatever [fetch] does, it leaves the watchers alone, keeps what was
    cached, sends at most one request, and a quote it resolves to is the
    one cached under the symbol. *)
Lemma fetch_inv S w o w1 :
  StockManager.fetch S w = (o, w1) ->
  preserved w w1 /\ sw_watchers w1 = sw_watchers w
  /\ (requests w1 = requests w \/ exists u, requests w1 = (requests w ++ [u])%list)
  /\ (forall r, o = Ok r -> sm_stocks w1 !! S = r).
Proof.
  unfold StockManager.fetch, StockManager.select, StockFetcher.fetch, new_StockQuote,
    preserved.
  run. intros H.
  repeat case_match; simplify_eq; simpl.
  all: repeat split.
  all: try (intros ? ?; simplify_eq; done).
  all: eauto using insert_subseteq.
  all: try congruence.
  all: by apply insert_subseteq.
Qed.

(** The same for [read], with the shape of its result. *)
Lemma read_inv S w o w1 :
  Managers.read S w = (o, w1) ->
  preserved w w1 /\ sw_watchers w1 = sw_watchers w
  /\ (requests w1 = requests w \/ exists u, requests w1 = (requests w ++ [u])%list)
  /\ (forall r, o = Ok r ->
        let stock := match sm_stocks w1 !! S with Some q => SQuote q | None => SUndefined end in
        search_hook w stock "" = Ok tt
        /\ r = ManagersResult.constructor
                 (option_map ManagersResult.Quote (sm_stocks w1 !! S))
                 (Some (List.filter (StockWatchers.matches stock "") (sw_watchers w1)))).
Proof.
  unfold Managers.read. unfold bind at 1.
  destruct (StockManager.fetch S w) as [[quote|e] w0] eqn:Hfetch.
  - apply fetch_inv in Hfetch as (Hp & Hw & Hr & Hq).
    specialize (Hq quote eq_refl). 
    unfold bind. rewrite search_run. unfold ret.
    assert (Hh : search_hook w0 = search_hook w).
    { unfold search_hook. destruct Hp as (_ & _ & _ & -> & _). reflexivity. } 
    rewrite Hh. 
    destruct (search_hook w _ "") as [[]|e] eqn:Hs; simpl; intros [= <- <-]; rewrite Hq; frame.
  - apply fetch_inv in Hfetch as (Hp & Hw & Hr & Hq).
    intros [= <- <-]. frame.
Qed.

(** A sequence that completes: so did its first part. *)

Lemma preserved_refl w : preserved w w.
Proof. unfold preserved. frame. Qed.

Lemma preserved_trans w w1 w2 : preserved w w1 -> preserved w1 w2 -> preserved w w2.
Proof.
  unfold preserved. intros (?&?&?&?&?&?) (?&?&?&?&?&?).
  repeat split; try congruence. by etrans.
Qed.

Lemma preserved_search_hook w w1 : preserved w w1 -> search_hook w1 = search_hook w.
Proof. unfold search_hook. by intros (_ & _ & _ & -> & _). Qed.

(** A read that produced a quote can be repeated: same result, and the
    world stays as the first read left it. *)
Lemma read_again S w r w1 q :
  Managers.read S w = (Ok r, w1) ->
  ManagersResult.stocks r = ManagersResult.Quote q ->
  sm_stocks w1 !! S = Some q /\ Managers.read S w1 = (Ok r, w1).
Proof.
  intros Hread Hq.
  apply read_inv in Hread as (Hp & Hw & _ & Hr).
  destruct (Hr r eq_refl) as [Hhook Hres]. clear Hr.
  destruct (sm_stocks w1 !! S) as [q'|] eqn:Hc.
  - rewrite Hres in Hq. simpl in Hq. injection Hq as ->.
    split; [done|].
    unfold Managers.read, bind. rewrite (fetch_hit S w1 q Hc), search_run.
    rewrite (preserved_search_hook _ _ Hp), Hhook. simpl. unfold ret.
    by rewrite Hres.
  - rewrite Hres in Hq. discriminate.
Qed.

(** ** The registry *)

Lemma appended_refl ws : appended ws ws.
Proof.
  induction ws; constructor; [|done].
  split; [done|]. exists []. by rewrite app_nil_r.
Qed.

Lemma appended_trans ws ws1 ws2 : appended ws ws1 -> appended ws1 ws2 -> appended ws ws2.
Proof.
  intros H. revert ws2. induction H as [|a b ws ws1 [Ha [x Hx]] _ IH]; intros ws2 H2.
  - inversion H2. constructor.
  - inversion H2 as [|? c ? ws2' [Hb [y Hy]] Hrest]; subst.
    constructor; [|by apply IH].
    split; [congruence|]. exists (x ++ y)%list. by rewrite Hy, Hx, app_assoc.
Qed.

(** [update] only pushes. *)
Lemma update_appended q address ws ws1 :
  StockWatchers.update q address ws = Some ws1 -> appended ws ws1.
Proof.
  revert ws1. induction ws as [|a ws IH]; intros ws1; simpl; [done|].
  destruct (String.eqb (Watcher.address a) address).
  - intros [= <-]. constructor; [|apply appended_refl].
    split; [done|]. by eexists.
  - destruct (StockWatchers.update q address ws) as [ws'|]; simpl; [|done].
    intros [= <-]. constructor; [|by apply IH].
    split; [done|]. exists []. by rewrite app_nil_r.
Qed.

Lemma same_refl q : StockQuote.same q q = true.
Proof. apply Nat.eqb_refl. Qed.

(** After [update] the quote is found under the address. *)
Lemma update_registers q address ws ws1 :
  StockWatchers.update q address ws = Some ws1 -> registered q address ws1.
Proof.
  unfold registered.
  revert ws1. induction ws as [|a ws IH]; intros ws1; simpl; [done|].
  destruct (String.eqb (Watcher.address a) address) eqn:Ea.
  - intros [= <-]. cbn [List.filter].
    assert (Hm : StockWatchers.matches (SQuote q) address
                   {| Watcher.stock := (Watcher.stock a ++ [q])%list;
                      Watcher.address := Watcher.address a |} = true).
    { unfold StockWatchers.matches, StockWatchers.validate. cbn [Watcher.stock Watcher.address].
      rewrite String.eqb_sym, Ea, orb_true_r, List.filter_app, length_app.
      cbn [List.filter]. rewrite same_refl. cbn [length].
      by rewrite Nat.add_succ_r. }
    by rewrite Hm.
  - destruct (StockWatchers.update q address ws) as [ws'|]; simpl; [|done].
    intros [= <-]. simpl.
    destruct (StockWatchers.matches (SQuote q) address a); [done | by apply IH].
Qed.

(** [update] succeeds when the address has a watcher. *)
Lemma update_finds q address ws :
  address ≠ "" ->
  List.filter (StockWatchers.matches SUndefined address) ws ≠ [] ->
  exists ws1, StockWatchers.update q address ws = Some ws1.
Proof.
  intros Hne. induction ws as [|a ws IH]; simpl; [done|].
  unfold StockWatchers.matches at 1. simpl.
  destruct (String.eqb address "") eqn:E; [apply String.eqb_eq in E; done|]. simpl.
  rewrite (String.eqb_sym address). rewrite andb_true_r.
  destruct (String.eqb (Watcher.address a) address); [eauto|].
  intros H. destruct (IH H) as [ws1 ->]. simpl. eauto.
Qed.

(** [add], path by path.  The last branch is [create]: the constructor of
    Watcher throws before anything is pushed. *)
Lemma add_run stock address w :
  StockWatchers.add stock address w =
  match stock with
  | ManagersResult.Quotes _ => (Throw ZodError, w)
  | ManagersResult.Quote q =>
      match search_hook w (SQuote q) address with
      | Throw e => (Throw e, w)
      | Ok _ =>
          if negb (Nat.eqb (length (List.filter (StockWatchers.matches (SQuote q) address)
                                                (sw_watchers w))) 0)
          then (Ok false, w)
          else
            match search_hook w SUndefined address with
            | Throw e => (Throw e, w)
            | Ok _ =>
                if negb (Nat.eqb (length (List.filter (StockWatchers.matches SUndefined address)
                                                      (sw_watchers w))) 0)
                then match StockWatchers.update q address (sw_watchers w) with
                     | Some ws1 => (Ok true, set_watchers (fun _ => ws1) w)
                     | None => (Ok false, w)
                     end
                else (Throw ReferenceError, w)
            end
      end
  end.
Proof.
  unfold StockWatchers.add. destruct stock as [q|m]; [|reflexivity].
  unfold bind at 1. unfold lift at 1. unfold bind at 1. rewrite search_run.
  destruct (search_hook w (SQuote q) address) as [[]|e]; simpl; [|reflexivity].
  destruct (length (List.filter (StockWatchers.matches (SQuote q) address) (sw_watchers w)));
    simpl; [|reflexivity].
  unfold bind at 1. rewrite search_run.
  destruct (search_hook w SUndefined address) as [[]|e]; simpl; [|reflexivity].
  destruct (length (List.filter (StockWatchers.matches SUndefined address) (sw_watchers w)));
    simpl.
  - unfold new_Watcher, bind, lift. by rewrite Watcher_constructor_throws.
  - unfold bind, world. destruct (StockWatchers.update q address (sw_watchers w)); reflexivity.
Qed.

Lemma filter_nonempty {A} (f : A -> bool) (l : list A) :
  negb (Nat.eqb (length (List.filter f l)) 0) = true <-> List.filter f l ≠ [].
Proof. destruct (List.filter f l); simpl; split; done. Qed.

(** [add] never touches the cache or the remote, only pushes onto stock
    lists, and when it returns the quote is on record for the address. *)
Lemma add_inv stock address w o w1 :
  StockWatchers.add stock address w = (o, w1) ->
  preserved w w1 /\ sm_stocks w1 = sm_stocks w /\ requests w1 = requests w
  /\ appended (sw_watchers w) (sw_watchers w1)
  /\ (forall b, o = Ok b ->
        exists q, stock = ManagersResult.Quote q
                  /\ (address ≠ "" -> registered q address (sw_watchers w1))).
Proof.
  rewrite add_run. destruct stock as [q|m].
  2:{ intros [= <- <-]. repeat split; auto using preserved_refl, appended_refl. done. }
  destruct (search_hook w (SQuote q) address) as [[]|e].
  2:{ intros [= <- <-]. repeat split; auto using preserved_refl, appended_refl. done. }
  destruct (negb (Nat.eqb (length (List.filter (StockWatchers.matches (SQuote q) address)
                                               (sw_watchers w))) 0)) eqn:Hfound.
  { intros [= <- <-]. repeat split; auto using preserved_refl, appended_refl.
    intros b _. exists q. split; [done|]. intros _. by apply filter_nonempty. }
  destruct (search_hook w SUndefined address) as [[]|e].
  2:{ intros [= <- <-]. repeat split; auto using preserved_refl, appended_refl. done. }
  destruct (negb (Nat.eqb (length (List.filter (StockWatchers.matches SUndefined address)
                                               (sw_watchers w))) 0)) eqn:Hany.
  2:{ intros [= <- <-]. repeat split; auto using preserved_refl, appended_refl. done. }
  destruct (StockWatchers.update q address (sw_watchers w)) as [ws1|] eqn:Hup.
  - intros [= <- <-]. repeat split; auto using preserved_refl; simpl.
    + by apply update_appended in Hup.
    + intros b _. exists q. split; [done|]. intros _. by apply update_registers in Hup.
  - intros [= <- <-]. repeat split; auto using preserved_refl, appended_refl.
    intros b _. exists q. split; [done|]. intros Hne.
    apply filter_nonempty in Hany.
    destruct (update_finds q address (sw_watchers w) Hne Hany) as [ws1 Hws1]. congruence.
Qed.

(** A registration that returned can be repeated at no cost: the repeat
    finds the pair, returns false and changes nothing. *)
Lemma add_again stock address w b w1 :
  StockWatchers.add stock address w = (Ok b, w1) ->
  StockWatchers.add stock address w1 = (Ok false, w1).
Proof.
  rewrite !add_run. destruct stock as [q|m]; [|done].
  destruct (search_hook w (SQuote q) address) as [[]|e] eqn:Hh1; [|done].
  destruct (negb (Nat.eqb (length (List.filter (StockWatchers.matches (SQuote q) address)
                                               (sw_watchers w))) 0)) eqn:Hfound.
  { intros [= <- <-]. by rewrite Hh1, Hfound. }
  destruct (search_hook w SUndefined address) as [[]|e] eqn:Hh2; [|done].
  destruct (negb (Nat.eqb (length (List.filter (StockWatchers.matches SUndefined address)
                                               (sw_watchers w))) 0)) eqn:Hany; [|done].
  destruct (StockWatchers.update q address (sw_watchers w)) as [ws1|] eqn:Hup.
  - intros [= <- <-].
    change (search_hook (set_watchers (fun _ => ws1) w)) with (search_hook w).
    rewrite Hh1. simpl.
    apply update_registers in Hup. apply filter_nonempty in Hup. by rewrite Hup.
  - intros [= <- <-]. by rewrite Hh1, Hfound, Hh2, Hany, Hup.
Qed.

(** With nobody on record, a registration ends in [create] and throws. *)
Lemma add_on_empty_registry_throws (q : StockQuote.t) (address : string) (w : World) :
  sw_watchers w = [] ->
  search_hook w (SQuote q) address = Ok tt ->
  search_hook w SUndefined address = Ok tt ->
  StockWatchers.add (ManagersResult.Quote q) address w = (Throw ReferenceError, w).
Proof.
  intros Hempty H1 H2. rewrite add_run, H1, H2, Hempty. reflexivity.
Qed.

(** No call of [add] adds an entry: however it ends, the registry has as
    many watchers as before. *)
Lemma registry_never_grows stock address w o w1 :
  StockWatchers.add stock address w = (o, w1) ->
  length (sw_watchers w1) = length (sw_watchers w).
Proof.
  intros H. apply add_inv in H as (_ & _ & _ & Happ & _).
  symmetry. by eapply Forall2_length.
Qed.

(** ** The loop of watch *)

Lemma watch_one_inv address name w o w1 :
  Managers.watch_one address name w = (o, w1) ->
  preserved w w1 /\ appended (sw_watchers w) (sw_watchers w1)
  /\ (o = Ok tt ->
        exists q, sm_stocks w1 !! name = Some q
                  /\ (address ≠ "" -> registered q address (sw_watchers w1))).
Proof.
  unfold Managers.watch_one. unfold bind at 1.
  destruct (Managers.read name w) as [[initial|e] w0] eqn:Hread.
  2:{ apply read_inv in Hread as (Hp & Hw & _). intros [= <- <-].
      rewrite Hw. split; [done|]. split; [apply appended_refl | done]. }
  apply read_inv in Hread as (Hp & Hw & _ & Hr).
  destruct (Hr initial eq_refl) as [_ Hres]. clear Hr.
  unfold bind at 1.
  destruct (StockWatchers.add (ManagersResult.stocks initial) address w0) as [[b|e] w2] eqn:Hadd.
  - apply add_inv in Hadd as (Hp2 & Hc & _ & Happ & Hb).
    unfold ret. intros [= <- <-].
    split; [by eapply preserved_trans|]. split; [by rewrite <- Hw|].
    intros _. destruct (Hb b eq_refl) as (q & Hq & Hreg).
    exists q. split; [|done].
    rewrite Hc. rewrite Hres in Hq. simpl in Hq.
    destruct (sm_stocks w0 !! name); simpl in Hq; congruence.
  - apply add_inv in Hadd as (Hp2 & Hc & _ & Happ & Hb).
    intros [= <- <-].
    split; [by eapply preserved_trans|]. split; [by rewrite <- Hw|]. done.
Qed.

(** [addresses] maps over the method, not over its result. *)
Lemma addresses_throws w : StockWatchers.addresses w = (Throw TypeError, w).
Proof. reflexivity. Qed.

(** X2.  A miss served by StockFetcher: no [callbacks.fetch], or one that
    resolves to a falsy value.  One request goes out for the trimmed
    symbol, and the quote built from the answer is cached under the symbol
    as it was asked for, and returned. *)
Lemma fetch_miss_stores symbol w sybmol url response quote :
  sm_stocks w !! symbol = None ->
  match sm_fetch w with
  | Some callback => exists fetched, callback symbol = Ok fetched /\ truthy fetched = false
  | None => True
  end ->
  StockFetcher.set_symbol symbol = Ok sybmol ->
  StockFetcher.source sybmol = Ok url ->
  remote w url = Ok response ->
  StockQuote.constructor response (objects w) = Ok quote ->
  match sm_downloaded w with
  | Some callback => callback (Some quote) = Ok tt
  | None => True
  end ->
  exists w1,
    StockManager.fetch symbol w = (Ok (Some quote), w1)
    /\ sm_stocks w1 = <[symbol := quote]> (sm_stocks w)
    /\ requests w1 = (requests w ++ [url])%list.
Proof.
  intros Hmiss Hhook Hset Hsrc Hremote Hnew Hdown.
  unfold StockManager.fetch, StockManager.select, StockFetcher.fetch, new_StockQuote.
  run. rewrite Hmiss.
  destruct (sm_fetch w) as [callback|].
  - destruct Hhook as (fetched & Hf & Ht). rewrite Hf. simpl. rewrite Ht. simpl.
    rewrite Hset, Hsrc. simpl. rewrite Hremote, Hnew. simpl.
    rewrite lookup_insert_eq.
    destruct (sm_downloaded w) as [down|]; [rewrite Hdown|]; simpl;
      rewrite lookup_insert_eq; eexists; split; [reflexivity| |reflexivity|]; split; reflexivity.
  - simpl. rewrite Hset, Hsrc. simpl. rewrite Hremote, Hnew. simpl.
    rewrite lookup_insert_eq.
    destruct (sm_downloaded w) as [down|]; [rewrite Hdown|]; simpl;
      rewrite lookup_insert_eq; eexists; split; [reflexivity| |reflexivity|]; split; reflexivity.
Qed.

(** ** The cache *)

(** C3.  A symbol present in the cache is answered by [fetch] with the
    cached quote and no request; so when a [read] produced a quote, the
    next [read] of the same symbol returns the identical result from the
    cache, and the two reads together sent at most one request. *)
Theorem cached_quote_is_served_without_request (symbol : string) (w : World) :
  (forall q, sm_stocks w !! symbol = Some q ->
             StockManager.fetch symbol w = (Ok (Some q), w))
  /\ (forall r w1 q,
        Managers.read symbol w = (Ok r, w1) ->
        ManagersResult.stocks r = ManagersResult.Quote q ->
        Managers.read symbol w1 = (Ok r, w1)
        /\ (length (requests w1) <= S (length (requests w)))%nat).
Proof.
  split; [intros q; apply fetch_hit|].
  intros r w1 q Hread Hq. split.
  - by destruct (read_again symbol w r w1 q Hread Hq).
  - apply read_inv in Hread as (_ & _ & [-> | [u ->]] & _).
    + lia.
    + rewrite length_app. simpl. lia.
Qed.

Lemma cached_quote_is_served_without_request_witness :
  let w1 := snd (Managers.read "DIS" Fixture.fresh) in
  StockManager.fetch "DIS" w1 = (Ok (Some Fixture.dis), w1)
  /\ (exists r, Managers.read "DIS" w1 = (Ok r, w1))
  /\ (length (requests w1) <= 1)%nat.
Proof.
  intros w1.
  destruct (cached_quote_is_served_without_request "DIS" w1) as [Hhit _].
  destruct (cached_quote_is_served_without_request "DIS" Fixture.fresh) as [_ Htwice].
  split; [apply Hhit; vm_compute; reflexivity|].
  destruct (Htwice (ManagersResult.constructor (Some (ManagersResult.Quote Fixture.dis)) (Some []))
                   w1 Fixture.dis) as [Hsecond Hcount].
  - vm_compute. reflexivity.
  - reflexivity.
  - split; [eexists; exact Hsecond | exact Hcount].
Defined.

(** C9, evaluated.  Nothing is cached and [callbacks.fetch] resolves to a
    quote: [fetch] caches nothing, sends no request and resolves to
    undefined. *)
Theorem fetch_callback_result_is_dropped :
  sm_stocks Fixture.hooked !! "DIS" = None
  /\ (exists callback, sm_fetch Fixture.hooked = Some callback
                       /\ callback "DIS" = Ok VObject)
  /\ StockManager.fetch "DIS" Fixture.hooked = (Ok None, Fixture.hooked).
Proof.
  split; [reflexivity|]. split; [eexists; split; reflexivity|]. reflexivity.
Qed.

(** ** Registrations *)

(** C1, evaluated.  On the managers as built, registering DIS for
    10.0.0.1 throws a ReferenceError, doing it again throws again, and the
    search for the pair is empty afterwards; [watch] fails the same way. *)
Theorem first_registration_throws :
  let add := StockWatchers.add (ManagersResult.Quote Fixture.dis) "10.0.0.1" in
  let w1 := snd (add Fixture.fresh) in
  let w2 := snd (add w1) in
  fst (add Fixture.fresh) = Throw ReferenceError
  /\ fst (add w1) = Throw ReferenceError
  /\ fst (StockWatchers.search (SQuote Fixture.dis) "10.0.0.1" w2) = Ok []
  /\ sw_watchers w2 = []
  /\ fst (Managers.watch (Managers.One "DIS") "10.0.0.1" Fixture.fresh) = Throw ReferenceError.
Proof. repeat split; vm_compute; reflexivity. Qed.

(** C5, evaluated.  On the managers as built, registering DIS and then NKE
    for 1.2.3.4 throws both times and leaves no entry, and [addresses]
    throws a TypeError. *)
Theorem second_symbol_registration_throws :
  let first := StockWatchers.add (ManagersResult.Quote Fixture.dis) "1.2.3.4" in
  let second := StockWatchers.add (ManagersResult.Quote Fixture.nke) "1.2.3.4" in
  let w1 := snd (first Fixture.fresh) in
  let w2 := snd (second w1) in
  fst (first Fixture.fresh) = Throw ReferenceError
  /\ fst (second w1) = Throw ReferenceError
  /\ sw_watchers w2 = []
  /\ fst (StockWatchers.addresses w2) = Throw TypeError.
Proof. repeat split; vm_compute; reflexivity. Qed.

(** The path C5 describes, from a registry that already holds the entry:
    the second quote is pushed onto it. *)
Lemma add_second_symbol (first second : StockQuote.t) (address : string) (w : World) :
  sw_search w = None ->
  sw_watchers w = [{| Watcher.stock := [first]; Watcher.address := address |}] ->
  StockQuote.same first second = false ->
  StockWatchers.add (ManagersResult.Quote second) address w
  = (Ok true,
     set_watchers
       (fun _ => [{| Watcher.stock := [first; second]; Watcher.address := address |}]) w).
Proof.
  intros Hhook Hws Hdiff. rewrite add_run. unfold search_hook. rewrite Hhook, Hws.
  cbn [List.filter]. unfold StockWatchers.matches, StockWatchers.validate.
  cbn [Watcher.stock Watcher.address List.filter]. rewrite Hdiff, String.eqb_refl.
  rewrite !orb_true_r. cbn. by rewrite String.eqb_refl.
Qed.

(** ** The symbol pattern *)

Lemma upper_or_dot_not_space c : upper_or_dot c = true -> is_space c = false.
Proof.
  unfold upper_or_dot, is_space. generalize (nat_of_ascii c). intros n.
  destruct (Nat.eqb_spec n 32), (Nat.leb_spec 9 n), (Nat.leb_spec n 13),
    (Nat.leb_spec 65 n), (Nat.leb_spec n 90), (Nat.eqb_spec n 46);
    cbn [andb orb]; intros; try done; lia.
Qed.

Lemma trim_start_symbol s :
  forallb upper_or_dot (list_ascii_of_string s) = true -> trim_start s = s.
Proof.
  destruct s as [|c s]; [reflexivity|]. simpl.
  intros [Hc _]%andb_true_iff. by rewrite (upper_or_dot_not_space c Hc).
Qed.

Lemma trim_end_symbol s :
  forallb upper_or_dot (list_ascii_of_string s) = true -> trim_end s = s.
Proof.
  induction s as [|c s IH]; [reflexivity|]. simpl.
  intros [Hc Hs]%andb_true_iff.
  rewrite (IH Hs), (upper_or_dot_not_space c Hc). reflexivity.
Qed.

Lemma trim_symbol s : matches_symbol s = true -> trim s = s.
Proof.
  unfold matches_symbol, trim.
  intros [[H _]%andb_true_iff _]%andb_true_iff.
  by rewrite (trim_start_symbol s H), (trim_end_symbol s H).
Qed.

(** X1.  What the symbol pattern lets through is in normal form: it
    matches the pattern as it stands (one to six capital letters or dots),
    trimming leaves it as it is, and parsing it again gives it back. *)
Theorem symbol_parse_normal_form (value : jsval) (s : string) :
  StockSybmolRegex_parse value = Ok s ->
  matches_symbol s = true
  /\ trim s = s
  /\ StockSybmolRegex_parse (VStr s) = Ok s.
Proof.
  destruct value; try discriminate. simpl.
  destruct (matches_symbol (trim s0)) eqn:Hm; [|discriminate].
  intros [= <-]. split; [done|]. split; [by apply trim_symbol|].
  by rewrite (trim_symbol _ Hm), Hm.
Qed.

Lemma symbol_parse_normal_form_witness :
  matches_symbol "DIS" = true
  /\ trim "DIS" = "DIS"
  /\ StockSybmolRegex_parse (VStr "DIS") = Ok "DIS".
Proof.
  apply (symbol_parse_normal_form (VStr "  DIS ") "DIS"). reflexivity.
Defined.

(** ** The cache, continued *)

Lemma fetch_miss_stores_witness :
  exists w1,
    StockManager.fetch " DIS " Fixture.fresh = (Ok (Some Fixture.dis), w1)
    /\ sm_stocks w1 = <[" DIS " := Fixture.dis]> (sm_stocks Fixture.fresh)
    /\ requests w1 = (requests Fixture.fresh ++ [Fixture.url "DIS"])%list.
Proof.
  apply (fetch_miss_stores " DIS " Fixture.fresh (VStr "DIS") (Fixture.url "DIS")
           (PObject (Fixture.body "DIS" 100)) Fixture.dis);
    try reflexivity; exact I.
Defined.

Lemma matched_symbol_truthy symbol :
  matches_symbol (trim symbol) = true -> truthy (VStr symbol) = true.
Proof. destruct symbol; [discriminate | reflexivity]. Qed.

(** X3.  A symbol of ASCII text that is not cached and whose trimmed text
    does not match the pattern is refused before anything is sent: when
    the miss is left to StockFetcher, [fetch] and [read] throw the
    validation error and the world is as it was: no request, nothing
    cached, no quote built. *)
Theorem invalid_symbol_sends_nothing (symbol : string) (w : World) :
  ascii_text symbol = true ->
  sm_stocks w !! symbol = None ->
  defers w symbol ->
  matches_symbol (trim symbol) = false ->
  StockManager.fetch symbol w = (Throw ZodError, w)
  /\ Managers.read symbol w = (Throw ZodError, w).
Proof.
  intros _ Hmiss Hhook Hbad.
  assert (Hfetch : StockManager.fetch symbol w = (Throw ZodError, w)).
  { unfold StockManager.fetch, StockFetcher.fetch, StockFetcher.set_symbol,
      StockFetcher.source, defers in *. run. rewrite Hmiss.
    destruct (sm_fetch w) as [callback|].
    - destruct Hhook as (fetched & -> & Ht). simpl. rewrite Ht. simpl.
      destruct symbol as [|c rest]; [reflexivity|]. simpl in *.
      by rewrite Hbad.
    - simpl. destruct symbol as [|c rest]; [reflexivity|]. simpl in *.
      by rewrite Hbad. }
  split; [done|]. unfold Managers.read, bind. by rewrite Hfetch.
Qed.

Lemma invalid_symbol_sends_nothing_witness :
  StockManager.fetch "ZZZZZZZ" Fixture.fresh = (Throw ZodError, Fixture.fresh)
  /\ Managers.read "ZZZZZZZ" Fixture.fresh = (Throw ZodError, Fixture.fresh).
Proof.
  apply (invalid_symbol_sends_nothing "ZZZZZZZ" Fixture.fresh);
    [reflexivity | reflexivity | exact I | reflexivity].
Defined.

(** X4.  With no [callbacks.downloaded] installed, a [fetch] that throws
    leaves the cache and the registry as they were. *)
Theorem failed_fetch_caches_nothing (symbol : string) (w w1 : World) (e : error) :
  StockManager.fetch symbol w = (Throw e, w1) ->
  sm_downloaded w = None ->
  sm_stocks w1 = sm_stocks w /\ sw_watchers w1 = sw_watchers w.
Proof.
  unfold StockManager.fetch, StockManager.select, StockFetcher.fetch, new_StockQuote.
  run. intros H Hdown.
  repeat case_match; simplify_eq; simpl in *; try done.
  all: congruence.
Qed.

Lemma failed_fetch_caches_nothing_witness :
  let w1 := snd (StockManager.fetch "ZZZ" Fixture.fresh) in
  sm_stocks w1 = sm_stocks Fixture.fresh /\ sw_watchers w1 = sw_watchers Fixture.fresh.
Proof.
  intros w1.
  apply (failed_fetch_caches_nothing "ZZZ" Fixture.fresh w1 NotFoundError);
    reflexivity.
Defined.

(** X5.  [callbacks.downloaded] runs after the quote has been stored:
    when it throws, [fetch] throws its error, the quote stays cached under
    the symbol, and the next [fetch] of the symbol returns it with the
    world unchanged. *)
Theorem failed_callback_keeps_quote (symbol : string) (w : World)
    (sybmol : jsval) (url : string) (response : properties (gmap string jsval))
    (quote : StockQuote.t) (callback : option StockQuote.t -> outcome unit) (e : error) :
  sm_stocks w !! symbol = None ->
  defers w symbol ->
  StockFetcher.set_symbol symbol = Ok sybmol ->
  StockFetcher.source sybmol = Ok url ->
  remote w url = Ok response ->
  StockQuote.constructor response (objects w) = Ok quote ->
  sm_downloaded w = Some callback ->
  callback (Some quote) = Throw e ->
  exists w1,
    StockManager.fetch symbol w = (Throw e, w1)
    /\ sm_stocks w1 !! symbol = Some quote
    /\ StockManager.fetch symbol w1 = (Ok (Some quote), w1).
Proof.
  intros Hmiss Hhook Hset Hsrc Hremote Hnew Hdown He.
  eexists. split; [|split].
  - unfold StockManager.fetch, StockManager.select, StockFetcher.fetch, new_StockQuote,
      defers in *.
    run. rewrite Hmiss.
    destruct (sm_fetch w) as [hook|].
    + destruct Hhook as (fetched & -> & Ht). simpl. rewrite Ht. simpl.
      rewrite Hset, Hsrc. simpl. rewrite Hremote, Hnew. simpl.
      rewrite Hdown, lookup_insert_eq, He. reflexivity.
    + simpl. rewrite Hset, Hsrc. simpl. rewrite Hremote, Hnew. simpl.
      rewrite Hdown, lookup_insert_eq, He. reflexivity.
  - simpl. apply lookup_insert_eq.
  - apply fetch_hit. simpl. apply lookup_insert_eq.
Qed.

Lemma failed_callback_keeps_quote_witness :
  exists w1,
    StockManager.fetch "DIS" Sample.grumpy = (Throw (OtherError "downloaded"), w1)
    /\ sm_stocks w1 !! "DIS" = Some Fixture.dis
    /\ StockManager.fetch "DIS" w1 = (Ok (Some Fixture.dis), w1).
Proof.
  apply (failed_callback_keeps_quote "DIS" Sample.grumpy (VStr "DIS") (Fixture.url "DIS")
           (PObject (Fixture.body "DIS" 100)) Fixture.dis
           (fun _ => Throw (OtherError "downloaded")) (OtherError "downloaded"));
    try reflexivity; exact I.
Defined.

(** What an [unload] that returned did: the symbol is deleted from the
    cache and nothing else is touched. *)
Lemma unload_inv symbol w answer w1 :
  StockManager.unload symbol w = (Ok answer, w1) ->
  sm_stocks w1 = delete symbol (sm_stocks w)
  /\ sm_fetch w1 = sm_fetch w
  /\ requests w1 = requests w.
Proof.
  unfold StockManager.unload. run.
  destruct (sm_deletion w) as [callback|]; [destruct (callback symbol)|];
    intros; simplify_eq; done.
Qed.

(** X6.  [unload] asks [callbacks.deletion] first.  When the callback
    throws, nothing is deleted.  Otherwise its answer, [true] with no
    callback, is returned; the symbol is gone from the cache, every other
    symbol is as it was, and the registry and the request log are
    unchanged. *)
Theorem unload_removes (symbol : string) (w : World) :
  match deletion_hook w symbol with
  | Throw e => StockManager.unload symbol w = (Throw e, w)
  | Ok answer =>
      exists w1,
        StockManager.unload symbol w = (Ok answer, w1)
        /\ sm_stocks w1 !! symbol = None
        /\ (forall other, other ≠ symbol -> sm_stocks w1 !! other = sm_stocks w !! other)
        /\ sw_watchers w1 = sw_watchers w
        /\ requests w1 = requests w
  end.
Proof.
  unfold StockManager.unload, deletion_hook. run.
  destruct (sm_deletion w) as [callback|].
  - destruct (callback symbol) as [answer|e]; [|reflexivity].
    eexists. split; [reflexivity|]. simpl.
    split; [apply lookup_delete_eq|]. split; [|done].
    intros other Hne. by apply lookup_delete_ne.
  - eexists. split; [reflexivity|]. simpl.
    split; [apply lookup_delete_eq|]. split; [|done].
    intros other Hne. by apply lookup_delete_ne.
Qed.

Lemma valid_symbol_source symbol :
  matches_symbol (trim symbol) = true ->
  outcome_bind (StockFetcher.set_symbol symbol) StockFetcher.source = Ok (source_of symbol).
Proof.
  intros Hm. unfold StockFetcher.set_symbol, StockFetcher.source, source_of.
  rewrite (matched_symbol_truthy symbol Hm). simpl. rewrite Hm. simpl.
  by rewrite (trim_symbol _ Hm), Hm.
Qed.

(** X7.  After [unload] a symbol is fetched anew: on managers without
    [callbacks.fetch], the [fetch] that follows the [unload] of a symbol the
    pattern accepts sends exactly one request, for the trimmed symbol,
    however that request ends. *)
Theorem unload_then_fetch_requests_again (symbol : string) (w w1 w2 : World)
    (answer : bool) (o : outcome (option StockQuote.t)) :
  matches_symbol (trim symbol) = true ->
  sm_fetch w = None ->
  StockManager.unload symbol w = (Ok answer, w1) ->
  StockManager.fetch symbol w1 = (o, w2) ->
  requests w2 = (requests w ++ [source_of symbol])%list.
Proof.
  intros Hm Hhook Hun Hfetch.
  apply unload_inv in Hun as (Hgone & Hhook1 & Hreq).
  rewrite Hhook in Hhook1.
  pose proof (valid_symbol_source symbol Hm) as Hsrc.
  unfold StockManager.fetch, StockManager.select, StockFetcher.fetch, new_StockQuote in Hfetch.
  run. rewrite Hgone, lookup_delete_eq, Hhook1 in Hfetch. simpl in Hfetch.
  destruct (StockFetcher.set_symbol symbol) as [sybmol|e]; [|discriminate].
  simpl in Hsrc. rewrite Hsrc in Hfetch. simpl in Hfetch. rewrite <- Hreq.
  repeat case_match; simplify_eq; done.
Qed.

Lemma unload_then_fetch_requests_again_witness :
  let w1 := snd (StockManager.unload "DIS" Sample.warm) in
  let w2 := snd (StockManager.fetch "DIS" w1) in
  requests w2 = (requests Sample.warm ++ [source_of "DIS"])%list.
Proof.
  intros w1 w2.
  apply (unload_then_fetch_requests_again "DIS" Sample.warm w1 w2 true
           (fst (StockManager.fetch "DIS" w1))).
  - reflexivity.
  - reflexivity.
  - reflexivity.
  - apply surjective_pairing.
Defined.

(** ** Identity of quotes *)

Lemma constructor_oid properties id q :
  StockQuote.constructor properties id = Ok q -> StockQuote.oid q = id.
Proof.
  unfold StockQuote.constructor.
  destruct (DataContainer.constructor ∅ properties true); simpl; [|discriminate].
  by intros [= <-].
Qed.

Lemma fetch_miss_fresh symbol w q w1 :
  sm_stocks w !! symbol = None ->
  StockManager.fetch symbol w = (Ok (Some q), w1) ->
  StockQuote.oid q = objects w.
Proof.
  unfold StockManager.fetch, StockManager.select, StockFetcher.fetch, new_StockQuote.
  run. intros Hmiss H. rewrite Hmiss in H.
  repeat case_match; simplify_eq; simpl in *;
    rewrite ?lookup_insert_eq in *; simplify_eq;
    try (by eapply constructor_oid); congruence.
Qed.

Lemma holds_nothing_new q watchers bound :
  Forall (fun watcher =>
            Forall (fun held => (StockQuote.oid held < bound)%nat) (Watcher.stock watcher))
         watchers ->
  StockQuote.oid q = bound ->
  List.filter (StockWatchers.matches (SQuote q) EmptyString) watchers = [].
Proof.
  intros Hall Hq. induction Hall as [|watcher rest Hw _ IH]; [reflexivity|].
  cbn [List.filter]. rewrite IH.
  assert (Hv : StockWatchers.validate (SQuote q) watcher = false).
  { unfold StockWatchers.validate.
    assert (Hnone : List.filter (fun added_stock => StockQuote.same added_stock q)
                                (Watcher.stock watcher) = []).
    { induction Hw as [|held others Hh _ IHh]; [reflexivity|].
      cbn [List.filter]. rewrite IHh. unfold StockQuote.same.
      destruct (Nat.eqb_spec (StockQuote.oid held) (StockQuote.oid q)); [lia | reflexivity]. }
    by rewrite Hnone. }
  unfold StockWatchers.matches. rewrite Hv. by rewrite andb_false_r.
Qed.

(** [read], path by path. *)
Lemma read_run symbol w :
  Managers.read symbol w =
  match StockManager.fetch symbol w with
  | (Throw e, w0) => (Throw e, w0)
  | (Ok quote, w0) =>
      let stock := match quote with Some q => SQuote q | None => SUndefined end in
      match search_hook w0 stock EmptyString with
      | Throw e => (Throw e, w0)
      | Ok _ =>
          (Ok (ManagersResult.constructor
                 (option_map ManagersResult.Quote quote)
                 (Some (List.filter (StockWatchers.matches stock EmptyString)
                                    (sw_watchers w0)))), w0)
      end
  end.
Proof.
  unfold Managers.read, bind.
  destruct (StockManager.fetch symbol w) as [[quote|e] w0]; [|reflexivity].
  rewrite search_run.
  destruct (search_hook w0 _ EmptyString) as [[]|e]; reflexivity.
Qed.

(** X8.  Watchers hold quotes by identity.  A [read] that misses the
    cache and produces a quote produces a new object, which no watcher on
    record can hold: the result reports no watchers, whatever the registry
    holds for quotes of that symbol built earlier. *)
Theorem fresh_quote_has_no_watchers (symbol : string) (w w1 : World)
    (r : ManagersResult.t) (q : StockQuote.t) :
  sm_stocks w !! symbol = None ->
  heap_ok w ->
  Managers.read symbol w = (Ok r, w1) ->
  ManagersResult.stocks r = ManagersResult.Quote q ->
  StockQuote.oid q = objects w /\ ManagersResult.watchers r = [].
Proof.
  intros Hmiss [_ Hheap] Hread Hq.
  rewrite read_run in Hread.
  destruct (StockManager.fetch symbol w) as [[quote|e] w0] eqn:Hfetch; [|discriminate].
  cbv zeta in Hread.
  destruct quote as [q'|];
    (destruct (search_hook w0 _ EmptyString) as [[]|e]; [|discriminate]);
    injection Hread as <- <-; [|discriminate].
  simpl in Hq. injection Hq as ->.
  pose proof (fetch_miss_fresh symbol w q w0 Hmiss Hfetch) as Hoid.
  apply fetch_inv in Hfetch as (_ & Hw & _).
  split; [done|]. simpl. rewrite Hw.
  by apply (holds_nothing_new q (sw_watchers w) (objects w)).
Qed.

Lemma fresh_quote_has_no_watchers_witness :
  let w := snd (StockManager.unload "DIS" Sample.warm) in
  exists r q,
    Managers.read "DIS" w = (Ok r, snd (Managers.read "DIS" w))
    /\ ManagersResult.stocks r = ManagersResult.Quote q
    /\ StockQuote.oid q = objects w /\ ManagersResult.watchers r = [].
Proof.
  intros w.
  exists (ManagersResult.constructor
            (Some (ManagersResult.Quote (Fixture.quote 1 "DIS" 100))) (Some [])),
         (Fixture.quote 1 "DIS" 100).
  assert (Hread : Managers.read "DIS" w
                  = (Ok (ManagersResult.constructor
                           (Some (ManagersResult.Quote (Fixture.quote 1 "DIS" 100)))
                           (Some [])),
                     snd (Managers.read "DIS" w))).
  { vm_compute. reflexivity. }
  split; [exact Hread|]. split; [reflexivity|].
  apply (fresh_quote_has_no_watchers "DIS" w (snd (Managers.read "DIS" w))
           (ManagersResult.constructor
              (Some (ManagersResult.Quote (Fixture.quote 1 "DIS" 100))) (Some []))
           (Fixture.quote 1 "DIS" 100)).
  - reflexivity.
  - split.
    + intros symbol quote H. vm_compute in H. discriminate.
    + repeat constructor.
  - exact Hread.
  - reflexivity.
Defined.

(** ** The registry over a session *)

Lemma watch_one_appended address name w o w1 :
  Managers.watch_one address name w = (o, w1) ->
  appended (sw_watchers w) (sw_watchers w1).
Proof. intros H. by apply watch_one_inv in H as (_ & H & _). Qed.

Lemma for_each_watch_appended address names w o w1 :
  for_each (Managers.watch_one address) names w = (o, w1) ->
  appended (sw_watchers w) (sw_watchers w1).
Proof.
  revert w. induction names as [|n names IH]; intros w; simpl.
  - unfold ret. intros [= <- <-]. apply appended_refl.
  - unfold bind.
    destruct (Managers.watch_one address n w) as [[[]|e] w0] eqn:Hone.
    + intros H. eapply appended_trans; [by eapply watch_one_appended | by eapply IH].
    + intros [= <- <-]. by eapply watch_one_appended.
Qed.

Lemma read_keeps_watchers symbol w :
  sw_watchers (snd (Managers.read symbol w)) = sw_watchers w.
Proof.
  destruct (Managers.read symbol w) as [o w1] eqn:H.
  by apply read_inv in H as (_ & H & _).
Qed.

Lemma map_each_read_keeps_watchers names w :
  sw_watchers
    (snd (map_each (fun symbol => let* r := Managers.read symbol in ret (symbol, r)) names w))
  = sw_watchers w.
Proof.
  revert w. induction names as [|n names IH]; intros w; [reflexivity|].
  simpl. unfold bind at 1. unfold bind at 1.
  pose proof (read_keeps_watchers n w) as Hread.
  destruct (Managers.read n w) as [[r|e] w0]; simpl in *; [|done].
  unfold ret at 1. unfold bind at 1.
  specialize (IH w0).
  destruct (map_each _ names w0) as [[bs|e] w2]; simpl in *; congruence.
Qed.

Lemma compare_keeps_watchers symbols w :
  sw_watchers (snd (Managers.compare symbols w)) = sw_watchers w.
Proof.
  unfold Managers.compare, bind.
  pose proof (map_each_read_keeps_watchers (slice symbols 0 (Some 2)) w) as H.
  destruct (map_each _ (slice symbols 0 (Some 2)) w) as [[data|e] w1]; simpl in *; done.
Qed.

Lemma watch_appended symbol address w :
  appended (sw_watchers w) (sw_watchers (snd (Managers.watch symbol address w))).
Proof.
  unfold Managers.watch, bind.
  destruct (for_each (Managers.watch_one address) (Managers.names_of symbol) w)
    as [[[]|e] w0] eqn:Hloop;
    apply for_each_watch_appended in Hloop; [|done].
  destruct symbol as [s|array].
  - pose proof (read_keeps_watchers s w0) as H.
    destruct (Managers.read s w0) as [[r|e] w1]; simpl in *; by rewrite H.
  - pose proof (compare_keeps_watchers array w0) as H.
    destruct (Managers.compare array w0) as [[c|e] w1]; simpl in *; by rewrite H.
Qed.

Lemma unload_keeps_watchers symbol w :
  sw_watchers (snd (StockManager.unload symbol w)) = sw_watchers w.
Proof.
  unfold StockManager.unload. run.
  destruct (sm_deletion w) as [callback|]; [destruct (callback symbol)|]; reflexivity.
Qed.

Lemma after_appended c w : appended (sw_watchers w) (sw_watchers (after c w)).
Proof.
  destruct c; simpl.
  - rewrite read_keeps_watchers. apply appended_refl.
  - apply watch_appended.
  - rewrite compare_keeps_watchers. apply appended_refl.
  - rewrite unload_keeps_watchers. apply appended_refl.
Qed.

Lemma session_appended calls w :
  appended (sw_watchers w) (sw_watchers (session calls w)).
Proof.
  unfold session. revert w. induction calls as [|c calls IH]; intros w; simpl.
  - apply appended_refl.
  - eapply appended_trans; [apply after_appended | apply IH].
Qed.

Lemma appended_addresses before after :
  appended before after -> map Watcher.address after = map Watcher.address before.
Proof.
  induction 1 as [|a b before after [Ha _] _ IH]; [reflexivity|].
  simpl. by rewrite Ha, IH.
Qed.

(** X14.  No sequence of [read], [watch], [compare] and [unload] adds or
    removes a watcher: the addresses on record stay the same, in the same
    order, and on the managers the server builds the registry stays
    empty. *)
Theorem session_never_adds_a_watcher
    (service : string -> outcome (properties (gmap string jsval)))
    (calls : list call) (w : World) :
  sw_watchers (session calls (new_Managers service)) = []
  /\ map Watcher.address (sw_watchers (session calls w))
     = map Watcher.address (sw_watchers w).
Proof.
  split.
  - pose proof (session_appended calls (new_Managers service)) as H.
    simpl in H. by inversion H.
  - apply appended_addresses, session_appended.
Qed.

Lemma watch_on_empty_registry
    (symbol : Managers.symbols) (address : string) (w : World) :
  sw_watchers w = [] ->
  Managers.names_of symbol ≠ [] ->
  exists e w1, Managers.watch symbol address w = (Throw e, w1) /\ sw_watchers w1 = [].
Proof.
  intros Hempty Hnames.
  destruct (Managers.names_of symbol) as [|n rest] eqn:Hn; [done|]. clear Hnames.
  unfold Managers.watch, bind. rewrite Hn. simpl. unfold bind at 1.
  unfold Managers.watch_one at 1. unfold bind at 1.
  pose proof (read_keeps_watchers n w) as Hkeep.
  destruct (Managers.read n w) as [[initial|e] w0]; simpl in Hkeep.
  2:{ exists e, w0. split; [reflexivity | congruence]. }
  unfold bind at 1. rewrite add_run.
  assert (Hw0 : sw_watchers w0 = []) by congruence.
  destruct (ManagersResult.stocks initial) as [q|m].
  2:{ exists ZodError, w0. done. }
  destruct (search_hook w0 (SQuote q) address) as [[]|e].
  2:{ exists e, w0. done. }
  rewrite Hw0. simpl.
  destruct (search_hook w0 SUndefined address) as [[]|e].
  2:{ exists e, w0. done. }
  exists ReferenceError, w0. done.
Qed.

(** ** watch *)

(** While nobody is on record, the turn of one symbol in the loop of
    [watch] throws, in [read] or in [add], and nobody is on record
    afterwards. *)
Lemma watch_one_on_empty_registry (address name : string) (w : World) :
  sw_watchers w = [] ->
  exists e w1,
    Managers.watch_one address name w = (Throw e, w1) /\ sw_watchers w1 = [].
Proof.
  intros Hempty. unfold Managers.watch_one. unfold bind at 1.
  pose proof (read_keeps_watchers name w) as Hkeep.
  destruct (Managers.read name w) as [[initial|e] w0]; simpl in Hkeep.
  2:{ exists e, w0. split; [reflexivity | congruence]. }
  unfold bind at 1. rewrite add_run.
  assert (Hw0 : sw_watchers w0 = []) by congruence.
  destruct (ManagersResult.stocks initial) as [q|m].
  2:{ exists ZodError, w0. done. }
  destruct (search_hook w0 (SQuote q) address) as [[]|e].
  2:{ exists e, w0. done. }
  rewrite Hw0. simpl.
  destruct (search_hook w0 SUndefined address) as [[]|e].
  2:{ exists e, w0. done. }
  exists ReferenceError, w0. done.
Qed.

(** The managers as built have nobody on record, whatever was called. *)
Lemma session_empty (service : string -> outcome (properties (gmap string jsval)))
    (calls : list call) :
  sw_watchers (session calls (new_Managers service)) = [].
Proof.
  pose proof (session_appended calls (new_Managers service)) as H.
  simpl in H. by inversion H.
Qed.

(** C7, evaluated.  On the managers as built, after any calls, the loop of
    [watch] ends in the turn of its first symbol: that turn throws, [watch]
    throws its error in the world it left, no symbol after the first is
    read, and nobody is on record.  So for DIS followed by a symbol the
    pattern refuses, [watch] throws the ReferenceError of the registration
    of DIS, not the error of the read that would fail; DIS is cached by the one
    request sent, and is not on record for the address. *)
Theorem watch_registers_no_earlier_symbol :
  (forall (service : string -> outcome (properties (gmap string jsval)))
          (calls : list call) (address first : string) (rest : list string),
      exists e w1,
        Managers.watch_one address first (session calls (new_Managers service))
        = (Throw e, w1)
        /\ for_each (Managers.watch_one address) (first :: rest)
                    (session calls (new_Managers service)) = (Throw e, w1)
        /\ Managers.watch (Managers.Many (first :: rest)) address
                          (session calls (new_Managers service)) = (Throw e, w1)
        /\ sw_watchers w1 = [])
  /\ (let run := Managers.watch (Managers.Many ["DIS"; "ZZZZZZZ"]) "10.0.0.1" Fixture.fresh in
      fst (Managers.read "ZZZZZZZ" Fixture.fresh) = Throw ZodError
      /\ fst run = Throw ReferenceError
      /\ sm_stocks (snd run) !! "DIS" = Some Fixture.dis
      /\ requests (snd run) = [Fixture.url "DIS"]
      /\ sw_watchers (snd run) = []
      /\ fst (StockWatchers.search (SQuote Fixture.dis) "10.0.0.1" (snd run)) = Ok []).
Proof.
  split.
  - intros service calls address first rest.
    destruct (watch_one_on_empty_registry address first
                (session calls (new_Managers service)) (session_empty service calls))
      as (e & w1 & Hone & Hw1).
    exists e, w1. split; [done|].
    assert (Hloop : for_each (Managers.watch_one address) (first :: rest)
                             (session calls (new_Managers service)) = (Throw e, w1)).
    { cbn [for_each]. unfold bind. by rewrite Hone. }
    split; [done|]. split; [|done].
    unfold Managers.watch. unfold bind at 1.
    cbn [Managers.names_of]. by rewrite Hloop.
  - repeat split; vm_compute; reflexivity.
Qed.

(** C8, evaluated.  On the managers as built, after any calls, [watch]
    with one symbol, or with an array of one symbol or more, resolves to
    nothing: it throws, and nobody is on record afterwards.  For DIS it
    throws the ReferenceError of the registration; the read that would have
    been returned is a cache hit and reports no watcher.  Only the empty
    array completes, with an empty comparison. *)
Theorem watch_returns_no_result :
  (forall (service : string -> outcome (properties (gmap string jsval)))
          (calls : list call) (address symbol : string),
      exists e w1,
        Managers.watch (Managers.One symbol) address
                       (session calls (new_Managers service)) = (Throw e, w1)
        /\ sw_watchers w1 = [])
  /\ (forall (service : string -> outcome (properties (gmap string jsval)))
             (calls : list call) (address first : string) (rest : list string),
         exists e w1,
           Managers.watch (Managers.Many (first :: rest)) address
                          (session calls (new_Managers service)) = (Throw e, w1)
           /\ sw_watchers w1 = [])
  /\ (let run := Managers.watch (Managers.One "DIS") "10.0.0.1" Fixture.fresh in
      fst run = Throw ReferenceError
      /\ Managers.read "DIS" (snd run)
         = (Ok (ManagersResult.constructor
                  (Some (ManagersResult.Quote Fixture.dis)) (Some [])), snd run)
      /\ fst (Managers.watch (Managers.Many ["DIS"; "NKE"]) "10.0.0.1" Fixture.fresh)
         = Throw ReferenceError
      /\ Managers.watch (Managers.Many []) "10.0.0.1" Fixture.fresh
         = (Ok (Managers.Comparison (ManagersComparisonResult.constructor (Some []))),
            Fixture.fresh)).
Proof.
  split; [|split].
  - intros service calls address symbol.
    apply watch_on_empty_registry; [apply session_empty | discriminate].
  - intros service calls address first rest.
    apply watch_on_empty_registry; [apply session_empty | discriminate].
  - repeat split; vm_compute; reflexivity.
Qed.

Lemma filter_sublist {A} (f : A -> bool) (l : list A) : sublist (List.filter f l) l.
Proof.
  induction l as [|a l IH]; cbn [List.filter]; [constructor|].
  destruct (f a); by constructor.
Qed.

Lemma filter_all {A} (f : A -> bool) (l : list A) :
  (forall a, f a = true) -> List.filter f l = l.
Proof.
  intros H. induction l as [|a l IH]; cbn [List.filter]; [reflexivity|].
  by rewrite H, IH.
Qed.

(** ** Searching *)

(** X11.  [search] changes nothing and answers with watchers of the
    registry in registry order.  A watcher is found when it passes the
    stock filter and the address filter, each taken alone; with neither
    filter the whole registry comes back. *)
Theorem search_combines_filters (stock : stock_arg) (address : string)
    (w w1 : World) (found : list Watcher.t) :
  StockWatchers.search stock address w = (Ok found, w1) ->
  w1 = w
  /\ sublist found (sw_watchers w)
  /\ (forall watcher,
        In watcher found <->
        In watcher (List.filter (StockWatchers.matches stock EmptyString) (sw_watchers w))
        /\ In watcher (List.filter (StockWatchers.matches SUndefined address) (sw_watchers w)))
  /\ (stock = SUndefined -> address = EmptyString -> found = sw_watchers w).
Proof.
  rewrite search_run.
  destruct (search_hook w stock address) as [[]|e]; simpl; [|discriminate].
  intros [= <- <-]. split; [reflexivity|]. split; [|split].
  - apply filter_sublist.
  - intros watcher. rewrite !List.filter_In. unfold StockWatchers.matches. simpl.
    destruct (negb (negb (String.eqb address EmptyString))
              || String.eqb address (Watcher.address watcher))%bool,
      (StockWatchers.validate stock watcher); simpl; tauto.
  - intros -> ->. by apply filter_all.
Qed.

Lemma search_combines_filters_witness :
  sublist [{| Watcher.stock := [Fixture.dis]; Watcher.address := "1.2.3.4" |}]
          (sw_watchers Sample.warm)
  /\ forall watcher,
       In watcher [{| Watcher.stock := [Fixture.dis]; Watcher.address := "1.2.3.4" |}] <->
       In watcher (List.filter (StockWatchers.matches (SQuote Fixture.dis) EmptyString)
                               (sw_watchers Sample.warm))
       /\ In watcher (List.filter (StockWatchers.matches SUndefined "1.2.3.4")
                                  (sw_watchers Sample.warm)).
Proof.
  destruct (search_combines_filters (SQuote Fixture.dis) "1.2.3.4" Sample.warm Sample.warm
              [{| Watcher.stock := [Fixture.dis]; Watcher.address := "1.2.3.4" |}])
    as (_ & Hsub & Hboth & _).
  - reflexivity.
  - split; [exact Hsub | exact Hboth].
Defined.

(** ** What a read reports *)

(** X9.  When [read] produces a quote, that quote is the one cached
    under the symbol, the registry is as before, and the watchers reported
    are, in registry order, the entries whose stock list holds that very
    quote. *)
Theorem read_reports_holders (symbol : string) (w w1 : World)
    (r : ManagersResult.t) (q : StockQuote.t) :
  Managers.read symbol w = (Ok r, w1) ->
  ManagersResult.stocks r = ManagersResult.Quote q ->
  sm_stocks w1 !! symbol = Some q
  /\ sw_watchers w1 = sw_watchers w
  /\ sublist (ManagersResult.watchers r) (sw_watchers w)
  /\ forall watcher,
       In watcher (ManagersResult.watchers r) <->
       In watcher (sw_watchers w)
       /\ exists held, In held (Watcher.stock watcher) /\ StockQuote.same held q = true.
Proof.
  intros Hread Hq.
  destruct (read_again symbol w r w1 q Hread Hq) as [Hc _].
  apply read_inv in Hread as (_ & Hw & _ & Hr).
  destruct (Hr r eq_refl) as [_ Hres]. clear Hr.
  rewrite Hc in Hres. simpl in Hres. rewrite Hw in Hres.
  split; [done|]. split; [done|]. rewrite Hres. simpl. split.
  - apply filter_sublist.
  - intros watcher. rewrite List.filter_In. unfold StockWatchers.matches. simpl.
    assert (Hv : StockWatchers.validate (SQuote q) watcher = true <->
                 exists held, In held (Watcher.stock watcher)
                              /\ StockQuote.same held q = true).
    { unfold StockWatchers.validate. split.
      - intros H.
        destruct (List.filter (fun added_stock => StockQuote.same added_stock q)
                              (Watcher.stock watcher)) as [|held rest] eqn:Hf; [discriminate|].
        assert (Hin : In held (List.filter (fun added_stock => StockQuote.same added_stock q)
                                           (Watcher.stock watcher)))
          by (rewrite Hf; by left).
        apply List.filter_In in Hin as [Hin Hs]. exists held. by split.
      - intros (held & Hin & Hs).
        assert (Hf : In held (List.filter (fun added_stock => StockQuote.same added_stock q)
                                          (Watcher.stock watcher)))
          by (by apply List.filter_In).
        destruct (List.filter _ (Watcher.stock watcher)); [done | reflexivity]. }
    rewrite <- Hv. tauto.
Qed.

Lemma read_reports_holders_witness :
  exists r,
    Managers.read "DIS" Sample.warm = (Ok r, Sample.warm)
    /\ ManagersResult.watchers r
       = [{| Watcher.stock := [Fixture.dis]; Watcher.address := "1.2.3.4" |}]
    /\ forall watcher,
         In watcher (ManagersResult.watchers r) <->
         In watcher (sw_watchers Sample.warm)
         /\ exists held, In held (Watcher.stock watcher)
                         /\ StockQuote.same held Fixture.dis = true.
Proof.
  eexists. split; [reflexivity|]. split; [reflexivity|].
  eapply (read_reports_holders "DIS" Sample.warm Sample.warm _ Fixture.dis); reflexivity.
Defined.

(** X10.  When [read] returns without a quote (a [callbacks.fetch] that
    resolved to something truthy, which [fetch] does not store), the result
    holds the empty object for its stocks, the symbol is not cached, and
    the watchers reported are the whole registry. *)
Theorem read_without_quote_reports_everyone (symbol : string) (w w1 : World)
    (r : ManagersResult.t) (quotes : gmap string StockQuote.t) :
  Managers.read symbol w = (Ok r, w1) ->
  ManagersResult.stocks r = ManagersResult.Quotes quotes ->
  quotes = ∅
  /\ sm_stocks w1 !! symbol = None
  /\ ManagersResult.watchers r = sw_watchers w.
Proof.
  intros Hread Hq.
  apply read_inv in Hread as (_ & Hw & _ & Hr).
  destruct (Hr r eq_refl) as [_ Hres]. clear Hr.
  destruct (sm_stocks w1 !! symbol) as [q|]; rewrite Hres in Hq; simpl in Hq;
    [discriminate|].
  injection Hq as <-. split; [done|]. split; [done|].
  rewrite Hres, Hw. simpl. by apply filter_all.
Qed.

Lemma read_without_quote_reports_everyone_witness :
  exists r,
    Managers.read "DIS" Sample.hooked_seeded = (Ok r, Sample.hooked_seeded)
    /\ sm_stocks Sample.hooked_seeded !! "DIS" = None
    /\ ManagersResult.watchers r = sw_watchers Sample.hooked_seeded.
Proof.
  eexists. split; [reflexivity|].
  eapply (read_without_quote_reports_everyone "DIS" Sample.hooked_seeded
            Sample.hooked_seeded _ ∅); reflexivity.
Defined.

(** ** The pairing of a comparison *)

Lemma head_take_drop {A} (l : list A) (count from : nat) :
  head (take count (drop from l)) = if Nat.eqb count 0 then None else l !! from.
Proof.
  rewrite head_lookup. destruct count as [|count]; simpl.
  - reflexivity.
  - rewrite lookup_take_lt by lia. rewrite lookup_drop. f_equal. lia.
Qed.

(** The opposite of the entry at [index]: the last entry for the first,
    and for the others the entry just before, as long as the entry lies in
    the first half. *)
Lemma opposite_rule (this : ManagersComparisonResult.t) (index : nat) :
  ManagersComparisonResult.opposite this index =
  if Nat.eqb index 0 then last (Object_values (ManagersComparisonResult.data this))
  else if Nat.leb (2 * index) (length (ManagersComparisonResult.data this))
       then Object_values (ManagersComparisonResult.data this) !! (index - 1)%nat
       else None.
Proof.
  unfold ManagersComparisonResult.opposite, slice.
  set (values := Object_values (ManagersComparisonResult.data this)).
  assert (Hlen : length values = length (ManagersComparisonResult.data this))
    by apply length_map.
  rewrite <- Hlen. rewrite head_take_drop.
  destruct index as [|i]; cbn [Nat.eqb].
  - change (- (1 - Z.of_nat 0)) with (-1).
    change (-1 <? 0) with true. cbv iota.
    rewrite last_lookup.
    destruct values as [|v values'] eqn:Hv; [reflexivity|].
    cbn [length].
    replace (Z.to_nat (Z.of_nat (S (length values'))
                       - Z.max (Z.of_nat (S (length values')) + -1) 0))
      with 1%nat by lia.
    replace (Z.to_nat (Z.max (Z.of_nat (S (length values')) + -1) 0))
      with (length values') by lia.
    reflexivity.
  - destruct (Z.ltb_spec (- (1 - Z.of_nat (S i))) 0) as [Hneg | _]; [lia|].
    destruct (Z.ltb_spec (- Z.of_nat (S i)) 0) as [_ | Hpos]; [|lia].
    destruct (Nat.leb_spec (2 * S i) (length values)) as [Hle | Hgt].
    + replace (Z.to_nat (Z.min (- (1 - Z.of_nat (S i))) (Z.of_nat (length values))))
        with i by lia.
      replace (S i - 1)%nat with i by lia.
      destruct (Nat.eqb_spec
                  (Z.to_nat (Z.max (Z.of_nat (length values) + - Z.of_nat (S i)) 0
                             - Z.min (- (1 - Z.of_nat (S i))) (Z.of_nat (length values)))) 0);
        [lia | reflexivity].
    + destruct (Nat.eqb_spec
                  (Z.to_nat (Z.max (Z.of_nat (length values) + - Z.of_nat (S i)) 0
                             - Z.min (- (1 - Z.of_nat (S i))) (Z.of_nat (length values)))) 0);
        [reflexivity | lia].
Qed.

(** ** Three entries or more *)

Lemma for_each_entry_throws {V} (this : ManagersComparisonResult.t)
    (body : string -> ManagersResult.t -> ManagersResult.t -> V) (index : nat) :
  (index < length (ManagersComparisonResult.data this))%nat ->
  ManagersComparisonResult.opposite this index = None ->
  ManagersComparisonResult.for_each_entry this body = Throw TypeError.
Proof.
  intros Hlt Hnone. unfold ManagersComparisonResult.for_each_entry.
  set (step := fun (acc : outcome (object V)) (index : nat) => _).
  assert (Hstay : forall l, fold_left step l (Throw TypeError) = Throw TypeError).
  { induction l as [|i l IH]; [reflexivity | exact IH]. }
  assert (Hgen : forall l (acc : outcome (object V)),
             In index l ->
             (acc = Throw TypeError \/ exists o, acc = Ok o) ->
             fold_left step l acc = Throw TypeError).
  { induction l as [|i l IH]; intros acc Hin Hacc; [destruct Hin|].
    simpl. destruct Hacc as [-> | [o ->]]; [apply Hstay|].
    destruct Hin as [-> | Hin].
    - unfold step at 2. simpl. rewrite Hnone.
      destruct (Object_values (ManagersComparisonResult.data this) !! index); apply Hstay.
    - apply IH; [done|]. unfold step. simpl.
      destruct (Object_values (ManagersComparisonResult.data this) !! i),
        (ManagersComparisonResult.opposite this i); eauto. }
  apply Hgen; [|right; by eexists].
  apply in_seq. lia.
Qed.

(** X15.  The pairing of [comparison] works for at most two entries: with
    three or more, the last entry has no opposite, and reading its watchers
    is a TypeError. *)
Theorem comparison_of_three_or_more_throws (this : ManagersComparisonResult.t) :
  (3 <= length (ManagersComparisonResult.data this))%nat ->
  ManagersComparisonResult.comparison this = Throw TypeError.
Proof.
  intros Hlen. unfold ManagersComparisonResult.comparison, ManagersComparisonResult.popular.
  rewrite (for_each_entry_throws this _ (length (ManagersComparisonResult.data this) - 1));
    [reflexivity | lia |].
  rewrite opposite_rule.
  destruct (Nat.eqb_spec (length (ManagersComparisonResult.data this) - 1) 0); [lia|].
  destruct (Nat.leb_spec (2 * (length (ManagersComparisonResult.data this) - 1))
                         (length (ManagersComparisonResult.data this))); [lia | reflexivity].
Qed.

Lemma comparison_of_three_or_more_throws_witness :
  ManagersComparisonResult.comparison
    {| ManagersComparisonResult.data :=
         [("DIS", Fixture.snapshot Fixture.dis 0);
          ("NKE", Fixture.snapshot Fixture.nke 0);
          ("IBM", Fixture.snapshot Fixture.dis 0)] |} = Throw TypeError.
Proof.
  apply comparison_of_three_or_more_throws. simpl. lia.
Defined.

(** ** Reading and comparing what is cached *)

Lemma read_hit symbol w q :
  sm_stocks w !! symbol = Some q ->
  search_hook w (SQuote q) "" = Ok tt ->
  Managers.read symbol w
  = (Ok {| ManagersResult.stocks := ManagersResult.Quote q;
           ManagersResult.watchers := holders q w |}, w).
Proof.
  intros Hhit Hhook. rewrite read_run, (fetch_hit symbol w q Hhit).
  cbv zeta. by rewrite Hhook.
Qed.

Lemma compare_hit_pair a b rest w qa qb :
  sm_stocks w !! a = Some qa -> sm_stocks w !! b = Some qb ->
  search_hook w (SQuote qa) "" = Ok tt -> search_hook w (SQuote qb) "" = Ok tt ->
  Managers.compare (a :: b :: rest) w
  = (Ok (ManagersComparisonResult.constructor
           (Some (Object_fromEntries
                    [(a, {| ManagersResult.stocks := ManagersResult.Quote qa;
                            ManagersResult.watchers := holders qa w |});
                     (b, {| ManagersResult.stocks := ManagersResult.Quote qb;
                            ManagersResult.watchers := holders qb w |})]))), w).
Proof.
  intros Ha Hb Hha Hhb. unfold Managers.compare.
  assert (Hs : slice (a :: b :: rest) 0 (Some 2) = [a; b]).
  { unfold slice. cbn [length].
    replace (Z.to_nat _) with 2%nat.
    - replace (Z.to_nat _) with 0%nat; [reflexivity|].
      destruct (Z.ltb_spec 0 0); lia.
    - destruct (Z.ltb_spec 0 0), (Z.ltb_spec 2 0); lia. }
  rewrite Hs. cbn [map_each]. unfold bind, ret.
  rewrite (read_hit a w qa Ha Hha), (read_hit b w qb Hb Hhb). reflexivity.
Qed.

(** ** GET /api/stock-prices *)

(** X17.  A request for one cached symbol without a flag is answered from
    the cache: the symbol and the price of the cached quote, and as likes
    the number of watchers holding it; the world is unchanged. *)
Theorem api_reads_cached_symbol (request : Routes.Request) (symbol : string)
    (w : World) (q : StockQuote.t) :
  Routes.stock request = Managers.One symbol ->
  Routes.willwatch request = Ok false ->
  sm_stocks w !! symbol = Some q ->
  search_hook w (SQuote q) "" = Ok tt ->
  api_get request w
  = (Ok (OutputProcessor.One
           {| stockData.stock := StockQuote.get q "symbol";
              stockData.price := StockQuote.get q "latestPrice";
              stockData.likes := length (holders q w) |}), w).
Proof.
  intros Hs Hflag Hhit Hhook.
  unfold api_get, OutputProcessor.execute, Routes.any, bind, lift.
  rewrite Hflag, Hs. unfold bind, ret. by rewrite (read_hit symbol w q Hhit Hhook).
Qed.

Lemma api_reads_cached_symbol_witness :
  api_get {| Routes.stock := Managers.One "DIS";
             Routes.query := [("like", Routes.Text "false")];
             Routes.ip := "10.0.0.1" |} Sample.warm
  = (Ok (OutputProcessor.One
           {| stockData.stock := VStr "DIS"; stockData.price := VNum 100;
              stockData.likes := 1 |}), Sample.warm).
Proof.
  apply (api_reads_cached_symbol
           {| Routes.stock := Managers.One "DIS";
              Routes.query := [("like", Routes.Text "false")];
              Routes.ip := "10.0.0.1" |} "DIS" Sample.warm Fixture.dis);
    reflexivity.
Defined.

(** X18.  A request for several symbols without a flag compares the first
    two.  When they differ and both are cached, the answer is one object
    for each, in order, with symbol, price and [rel_likes], no [likes]; the
    two [rel_likes] are the differences of the watcher counts, one the
    opposite of the other; the world is unchanged. *)
Theorem api_compares_cached_pair (request : Routes.Request) (a b : string)
    (rest : list string) (w : World) (qa qb : StockQuote.t) :
  Routes.stock request = Managers.Many (a :: b :: rest) ->
  Routes.willwatch request = Ok false ->
  a ≠ b ->
  sm_stocks w !! a = Some qa -> sm_stocks w !! b = Some qb ->
  search_hook w (SQuote qa) "" = Ok tt -> search_hook w (SQuote qb) "" = Ok tt ->
  api_get request w
  = (Ok (OutputProcessor.Several
           [ [("stock", StockQuote.get qa "symbol");
              ("price", StockQuote.get qa "latestPrice");
              ("rel_likes", VNum (Z.of_nat (length (holders qb w))
                                  - Z.of_nat (length (holders qa w))))];
             [("stock", StockQuote.get qb "symbol");
              ("price", StockQuote.get qb "latestPrice");
              ("rel_likes", VNum (Z.of_nat (length (holders qa w))
                                  - Z.of_nat (length (holders qb w))))] ]), w).
Proof.
  intros Hs Hflag Hne Ha Hb Hha Hhb.
  unfold api_get, OutputProcessor.execute, Routes.any, bind, lift.
  rewrite Hflag, Hs. unfold bind, ret.
  rewrite (compare_hit_pair a b rest w qa qb Ha Hb Hha Hhb).
  assert (Hab : String.eqb a b = false) by (by apply String.eqb_neq).
  unfold ManagersComparisonResult.constructor, Object_fromEntries.
  cbn [fold_left obj_set fst snd from_option id]. rewrite Hab. cbn [from_option id].
  set (ra := {| ManagersResult.stocks := ManagersResult.Quote qa;
                ManagersResult.watchers := holders qa w |}).
  set (rb := {| ManagersResult.stocks := ManagersResult.Quote qb;
                ManagersResult.watchers := holders qb w |}).
  unfold comparedStockData.stockData, ManagersComparisonResult.names.
  cbn [Object_keys map fst ManagersComparisonResult.data comparedStockData.elements].
  unfold comparedStockData.element, ManagersComparisonResult.comparison.
  rewrite (popular_pair a b ra rb Hne).
  destruct (differences_pair_ok a b ra rb) as [s ->].
  cbn [outcome_bind ManagersComparisonResult.data ManagersComparisonResult.watchers obj_get].
  rewrite !String.eqb_refl, Hab. reflexivity.
Qed.

Lemma api_compares_cached_pair_witness :
  let w := snd (Managers.read "NKE" Sample.warm) in
  api_get {| Routes.stock := Managers.Many ["DIS"; "NKE"; "IBM"];
             Routes.query := []; Routes.ip := "10.0.0.1" |} w
  = (Ok (OutputProcessor.Several
           [ [("stock", VStr "DIS"); ("price", VNum 100); ("rel_likes", VNum (-1))];
             [("stock", VStr "NKE"); ("price", VNum 70); ("rel_likes", VNum 1)] ]), w).
Proof.
  intros w.
  apply (api_compares_cached_pair
           {| Routes.stock := Managers.Many ["DIS"; "NKE"; "IBM"];
              Routes.query := []; Routes.ip := "10.0.0.1" |}
           "DIS" "NKE" ["IBM"] w Fixture.dis (Fixture.quote 1 "NKE" 70));
    try reflexivity.
  discriminate.
Defined.

(** X19.  A request that names the same cached symbol twice is answered
    with one object, whose [rel_likes] is 0. *)
Theorem api_compares_symbol_with_itself (request : Routes.Request) (a : string)
    (rest : list string) (w : World) (q : StockQuote.t) :
  Routes.stock request = Managers.Many (a :: a :: rest) ->
  Routes.willwatch request = Ok false ->
  sm_stocks w !! a = Some q ->
  search_hook w (SQuote q) "" = Ok tt ->
  api_get request w
  = (Ok (OutputProcessor.Several
           [ [("stock", StockQuote.get q "symbol");
              ("price", StockQuote.get q "latestPrice");
              ("rel_likes", VNum 0)] ]), w).
Proof.
  intros Hs Hflag Ha Hh.
  unfold api_get, OutputProcessor.execute, Routes.any, bind, lift.
  rewrite Hflag, Hs. unfold bind, ret.
  rewrite (compare_hit_pair a a rest w q q Ha Ha Hh Hh).
  unfold ManagersComparisonResult.constructor, Object_fromEntries.
  cbn [fold_left obj_set fst snd from_option id]. rewrite String.eqb_refl. cbn [from_option id].
  set (r := {| ManagersResult.stocks := ManagersResult.Quote q;
               ManagersResult.watchers := holders q w |}).
  unfold comparedStockData.stockData, ManagersComparisonResult.names.
  cbn [Object_keys map fst ManagersComparisonResult.data comparedStockData.elements].
  unfold comparedStockData.element, ManagersComparisonResult.comparison,
    ManagersComparisonResult.popular, ManagersComparisonResult.differences,
    ManagersComparisonResult.for_each_entry.
  cbn. rewrite (opposite_single a r). cbn.
  rewrite !String.eqb_refl. cbn. by rewrite Z.sub_diag.
Qed.

Lemma api_compares_symbol_with_itself_witness :
  api_get {| Routes.stock := Managers.Many ["DIS"; "DIS"];
             Routes.query := []; Routes.ip := "10.0.0.1" |} Sample.warm
  = (Ok (OutputProcessor.Several
           [ [("stock", VStr "DIS"); ("price", VNum 100); ("rel_likes", VNum 0)] ]),
     Sample.warm).
Proof.
  apply (api_compares_symbol_with_itself
           {| Routes.stock := Managers.Many ["DIS"; "DIS"];
              Routes.query := []; Routes.ip := "10.0.0.1" |}
           "DIS" [] Sample.warm Fixture.dis);
    reflexivity.
Defined.

(** X20.  While the registry is empty, a request that asks for a watch
    is never answered with stock data: the handler throws or answers with
    an error, and the registry is still empty. *)
Theorem api_like_on_empty_registry (request : Routes.Request) (w : World) :
  Routes.willwatch request = Ok true ->
  sw_watchers w = [] ->
  Managers.names_of (Routes.stock request) ≠ [] ->
  exists e w1,
    (api_get request w = (Throw e, w1)
     \/ api_get request w = (Ok (OutputProcessor.Failure e), w1))
    /\ sw_watchers w1 = [].
Proof.
  intros Hflag Hempty Hnames.
  destruct (watch_on_empty_registry (Routes.stock request) (Routes.ip request) w
              Hempty Hnames) as (e & w1 & Hwatch & Hw1).
  exists e, w1. split; [|done].
  unfold api_get, OutputProcessor.execute, Routes.any, bind, lift.
  rewrite Hflag. unfold Routes.watch. rewrite Hwatch.
  destruct (OutputProcessor.known e); [by right | by left].
Qed.

Lemma api_like_on_empty_registry_witness :
  exists e w1,
    (api_get {| Routes.stock := Managers.One "DIS";
                Routes.query := [("like", Routes.Text "true")];
                Routes.ip := "10.0.0.1" |} Fixture.fresh = (Throw e, w1)
     \/ api_get {| Routes.stock := Managers.One "DIS";
                   Routes.query := [("like", Routes.Text "true")];
                   Routes.ip := "10.0.0.1" |} Fixture.fresh
        = (Ok (OutputProcessor.Failure e), w1))
    /\ sw_watchers w1 = [].
Proof.
  apply (api_like_on_empty_registry
           {| Routes.stock := Managers.One "DIS";
              Routes.query := [("like", Routes.Text "true")];
              Routes.ip := "10.0.0.1" |} Fixture.fresh).
  - reflexivity.
  - reflexivity.
  - discriminate.
Defined.

(** ** The flags of a request *)

Lemma choices_words (s : string) :
  existsb (same_value_zero (VStr s)) Routes.choices = true
  <-> In s ["true"; "yes"; "+"].
Proof.
  unfold Routes.choices. cbn [existsb same_value_zero orb In].
  rewrite !orb_true_iff, !String.eqb_eq. intuition congruence.
Qed.

(** X16.  A query parameter asks for a watch exactly when it is a text
    that, in lower case, is [true], [yes] or [+]; the number [1] among the
    choices is never met by a text.  [willwatch] holds when [like] asks, or
    when [like] is absent or declines and [watch] asks. *)
Theorem willwatch_accepts_words (request : Routes.Request) :
  (forall name,
     Routes.flag (Routes.query request) name = Ok true <->
     exists s, obj_get (Routes.query request) name = Some (Routes.Text s)
               /\ In (toLocaleLowerCase s) ["true"; "yes"; "+"])
  /\ (Routes.willwatch request = Ok true <->
      Routes.flag (Routes.query request) "like" = Ok true
      \/ (Routes.flag (Routes.query request) "like" = Ok false
          /\ Routes.flag (Routes.query request) "watch" = Ok true)).
Proof.
  split.
  - intros name. unfold Routes.flag.
    destruct (obj_get (Routes.query request) name) as [[s|items|]|].
    + destruct (truthy (VStr s)) eqn:Ht.
      * split.
        -- intros [= H]. exists s. split; [reflexivity | by apply choices_words].
        -- intros (s' & [= <-] & H). apply choices_words in H. by rewrite H.
      * split; [discriminate|]. intros (s' & [= <-] & H).
        destruct s as [|c s]; [|discriminate Ht].
        simpl in H. intuition discriminate.
    + split; [discriminate | intros (s & H & _); discriminate].
    + split; [discriminate | intros (s & H & _); discriminate].
    + split; [discriminate | intros (s & H & _); discriminate].
  - unfold Routes.willwatch. cbn [some].
    destruct (Routes.flag (Routes.query request) "like") as [[]|e]; cbn [outcome_bind].
    + split; [by left | done].
    + destruct (Routes.flag (Routes.query request) "watch") as [[]|e]; cbn [outcome_bind].
      * split; [by right | done].
      * split; [discriminate | intros [H | [_ H]]; discriminate].
      * split; [discriminate | intros [H | [_ H]]; discriminate].
    + split; [discriminate | intros [H | [H _]]; discriminate].
Qed.
